(** * homespan-hdmi-cec: the command mapping bridge between HomeSpan and CEC

    A shallow embedding of [homespan-hdmi-cec.ino]: the application
    specific CEC device [MyCEC_Device] (its [OnReady] and
    [OnReceiveComplete] callbacks) and the two HomeSpan services
    [HomeSpanTV] and [HomeSpanTVSpeaker] (their [update] methods).

    The sketch is written against two libraries, HomeSpan and CEC_Device.
    What the sketch uses of them is kept as small as the sketch needs:
    a characteristic is the triple the sketch reads and writes, and a call
    of [TransmitFrame] is recorded, in order, with the arguments it was
    given.  [CEC_Device::Initialize] and the address allocation it starts
    belong to the CEC_Device library and are not modelled. *)

From stdpp Require Import base list strings.
From Stdlib Require Import ZArith Lia.

Local Open Scope string_scope.
Local Open Scope list_scope.
Local Open Scope Z_scope.

(** ** Constants of the sketch *)

Definition CEC_GPIO : Z := 13.
Definition CEC_PHYSICAL_ADDRESS : Z := 0x3000.

(** Conversion to [unsigned char], as done when an [int] initialises an
    element of an [unsigned char] array. *)
Definition to_uchar (z : Z) : Z := z mod 256.

(** A string literal is stored with its terminating NUL. *)
Definition cstr (bytes : list Z) : list Z := bytes ++ [0].

(** ** HomeSpan objects *)

(** Modelled from the spec: the [SpanCharacteristic] of HomeSpan, which is
    not part of the sketch, as far as the sketch looks at it: the current
    value ([getVal]), the value requested by the controller ([getNewVal])
    and whether the pending request touches it ([updated]). *)
Record SpanCharacteristic := mkCharacteristic {
  value : Z;
  newValue : Z;
  isUpdated : bool
}.

Definition updated (c : SpanCharacteristic) : bool := isUpdated c.
Definition getNewVal (c : SpanCharacteristic) : Z := newValue c.
Definition getVal (c : SpanCharacteristic) : Z := value c.

(** Modelled from the spec: [SpanCharacteristic::setVal] of HomeSpan, which
    is not part of the sketch.  The characteristic takes the value, as its
    current and as its requested one. *)
Definition setVal (v : Z) (c : SpanCharacteristic) : SpanCharacteristic :=
  {| value := v; newValue := v; isUpdated := isUpdated c |}.

Record HomeSpanTVSpeaker := mkSpeaker {
  volume : SpanCharacteristic;
  volumeType : SpanCharacteristic
}.

Record HomeSpanTV := mkTV {
  active : SpanCharacteristic;
  activeID : SpanCharacteristic;
  remoteKey : SpanCharacteristic;
  settingsKey : SpanCharacteristic
}.

Definition with_active (c : SpanCharacteristic) (tv : HomeSpanTV) : HomeSpanTV :=
  {| active := c; activeID := activeID tv;
     remoteKey := remoteKey tv; settingsKey := settingsKey tv |}.

(** ** What the program emits *)

Inductive Arg :=
| ArgInt (z : Z)
| ArgStr (s : string).

(** Console output, one entry per call.  Format strings are kept as they
    are written in the sketch, escape sequences included. *)
Inductive Output :=
| Dbg (fmt : string) (args : list Arg)
| Serial_printf (fmt : string) (args : list Arg)
| Serial_print (s : string)
| Serial_println (s : string).

(** One call of [TransmitFrame(targetAddress, buffer, count)]: the target
    and the [count] first bytes of the buffer. *)
Record Frame := mkFrame {
  targetAddress : Z;
  payload : list Z
}.

(** ** The state the sketch runs in *)

Record World := mkWorld {
  (** fields of the [CEC_Device] base class of the global [device] *)
  LogicalAddress : Z;
  Promiscuous : bool;
  (** [MyCEC_Device::connectedTV]: [None] is the null pointer, [Some p]
      points to cell [p] of [televisions] *)
  connectedTV : option nat;
  (** the [HomeSpanTV] and [HomeSpanTVSpeaker] objects on the heap *)
  televisions : list HomeSpanTV;
  speakers : list HomeSpanTVSpeaker;
  (** the clock read by [millis()] *)
  millis : Z;
  (** the calls of [TransmitFrame] so far, oldest first *)
  transmitted : list Frame;
  (** console output so far, oldest first *)
  console : list Output;
  (** the indices at which a receive buffer was dereferenced, oldest first *)
  derefs : list Z
}.

Definition set_connectedTV (p : option nat) (w : World) : World :=
  mkWorld (LogicalAddress w) (Promiscuous w) p (televisions w)
          (speakers w) (millis w) (transmitted w) (console w) (derefs w).

Definition set_televisions (tvs : list HomeSpanTV) (w : World) : World :=
  mkWorld (LogicalAddress w) (Promiscuous w) (connectedTV w) tvs
          (speakers w) (millis w) (transmitted w) (console w) (derefs w).

Definition set_transmitted (fs : list Frame) (w : World) : World :=
  mkWorld (LogicalAddress w) (Promiscuous w) (connectedTV w) (televisions w)
          (speakers w) (millis w) fs (console w) (derefs w).

Definition set_console (os : list Output) (w : World) : World :=
  mkWorld (LogicalAddress w) (Promiscuous w) (connectedTV w) (televisions w)
          (speakers w) (millis w) (transmitted w) os (derefs w).

Definition set_derefs (ixs : list Z) (w : World) : World :=
  mkWorld (LogicalAddress w) (Promiscuous w) (connectedTV w) (televisions w)
          (speakers w) (millis w) (transmitted w) (console w) ixs.

(** The application state of the accessory layer: the characteristics of
    the services. *)
Definition ApplicationState (w : World) : list HomeSpanTV * list HomeSpanTVSpeaker :=
  (televisions w, speakers w).

(** ** A state and failure monad

    A computation runs in a [World]; [None] stands for undefined
    behaviour (a null or dangling [connectedTV] is dereferenced). *)

Definition M (A : Type) : Type := World -> option (A * World).

Definition ret {A} (a : A) : M A := fun w => Some (a, w).

Definition bind {A B} (m : M A) (k : A -> M B) : M B :=
  fun w => match m w with
           | Some (a, w') => k a w'
           | None => None
           end.

Definition crash {A} : M A := fun _ => None.

Declare Scope cec_scope.
Delimit Scope cec_scope with cec.
Notation "'let*' x ':=' m 'in' k" := (bind m (fun x => k))
  (at level 10, x name, m at level 100, k at level 200) : cec_scope.
Notation "m ';;' k" := (bind m (fun _ => k))
  (at level 100, k at level 200, right associativity) : cec_scope.
Local Open Scope cec_scope.

Definition when (b : bool) (m : M unit) : M unit := if b then m else ret tt.

(** [for (int i = lo; i < hi; i++) body(i)] *)
Fixpoint for_from (lo : Z) (n : nat) (body : Z -> M unit) : M unit :=
  match n with
  | O => ret tt
  | S n' => body lo ;; for_from (lo + 1) n' body
  end.

Definition for_range (lo hi : Z) (body : Z -> M unit) : M unit :=
  for_from lo (Z.to_nat (hi - lo)) body.

(** [switch (x) { case c1: ...; break; ... default: ... }], every case
    ending in [break]. *)
Fixpoint switch {A} (x : Z) (cases : list (Z * A)) (default : A) : A :=
  match cases with
  | [] => default
  | (c, a) :: rest => if x =? c then a else switch x rest default
  end.

(** ** Primitives *)

Definition get {A} (f : World -> A) : M A := fun w => Some (f w, w).

Definition emit (o : Output) : M unit :=
  fun w => Some (tt, set_console (console w ++ [o]) w).

Definition DbgPrint (fmt : string) (args : list Arg) : M unit := emit (Dbg fmt args).

(** [buffer[i]], where [buffer] is the memory behind the pointer handed to
    the callback: the access is recorded. *)
Definition peek (buffer : Z -> Z) (i : Z) : M Z :=
  fun w => Some (buffer i, set_derefs (derefs w ++ [i]) w).

(** Modelled from the spec: [CEC_Device::TransmitFrame], which is not
    part of the sketch.  The call is recorded; its outcome on the bus,
    which every caller in the sketch drops, is not. *)
Definition TransmitFrame (target : Z) (buffer : list Z) (count : Z) : M unit :=
  fun w => Some (tt, set_transmitted
                       (transmitted w ++ [mkFrame target (take (Z.to_nat count) buffer)]) w).

(** [connectedTV->active->setVal(v)] *)
Definition connectedTV_active_setVal (v : Z) : M unit :=
  fun w => match connectedTV w with
           | None => crash w
           | Some p =>
               match televisions w !! p with
               | None => crash w
               | Some tv =>
                   Some (tt, set_televisions
                               (<[p := with_active (setVal v (active tv)) tv]> (televisions w)) w)
               end
           end.

Section Sketch.

(** [CEC_Device::CDT_PLAYBACK_DEVICE], an enumerator of CEC_Device.h. *)
Variable CDT_PLAYBACK_DEVICE : Z.

Definition CEC_DEVICE_TYPE : Z := CDT_PLAYBACK_DEVICE.

(** [unsigned char buf[4] = {0x84, CEC_PHYSICAL_ADDRESS >> 8,
    CEC_PHYSICAL_ADDRESS & 0xff, CEC_DEVICE_TYPE}] *)
Definition report_physical_address_buf : list Z :=
  [to_uchar 0x84;
   to_uchar (Z.shiftr CEC_PHYSICAL_ADDRESS 8);
   to_uchar (Z.land CEC_PHYSICAL_ADDRESS 0xff);
   to_uchar CEC_DEVICE_TYPE].

(** ** MyCEC_Device *)

Definition SetTVDevice (tv : option nat) : M unit :=
  fun w => Some (tt, set_connectedTV tv w).

Definition OnReady (logicalAddress : Z) : M unit :=
  DbgPrint "Device ready, Logical address assigned: %d\n" [ArgInt logicalAddress] ;;
  TransmitFrame 0xf report_physical_address_buf 4.

(** [DbgPrint(":%02X", buffer[i])], the body of the loop that prints a
    frame in both completion callbacks. *)
Definition dump_byte (buffer : Z -> Z) (i : Z) : M unit :=
  let* b := peek buffer i in DbgPrint ":%02X" [ArgInt b].

Definition OnTransmitComplete (buffer : Z -> Z) (count : Z) (ack : bool) : M unit :=
  let* now := get millis in
  let* b0 := peek buffer 0 in
  DbgPrint "Packet sent at %ld: %02X" [ArgInt now; ArgInt b0] ;;
  for_range 1 count (dump_byte buffer) ;;
  when (negb ack) (DbgPrint " NAK" []) ;;
  DbgPrint "\n" [].

(** The part of [OnReceiveComplete] behind its two guards: the opcode
    [switch] and the power test. *)
Definition route_opcode (buffer : Z -> Z) : M unit :=
  DbgPrint "This one's for us...\n" [] ;;
  let* opcode := peek buffer 1 in
  switch opcode
    [ (0x83, TransmitFrame 0xf report_physical_address_buf 4);
      (0x8c, TransmitFrame 0xf (cstr [0x87; 0x01; 0x23; 0x45]) 4);
      (0x46, emit (Serial_println "Give OSD name...\n") ;;
             TransmitFrame 0x4f (cstr [0x47; 0x52; 0x44; 0x4d]) 4) ]
    (ret tt) ;;
  let* b0 := peek buffer 0 in
  if b0 =? 0x04 then
    let* b1 := peek buffer 1 in
    if b1 =? 0x90 then
      DbgPrint "Hello, TV...\n" [] ;;
      let* b2 := peek buffer 2 in
      if b2 =? 0x00 then connectedTV_active_setVal 1 else ret tt
    else ret tt
  else ret tt.

Definition OnReceiveComplete (buffer : Z -> Z) (count : Z) (ack : bool) : M unit :=
  let* now := get millis in
  let* b0 := peek buffer 0 in
  DbgPrint "Packet received at %ld: %02X" [ArgInt now; ArgInt b0] ;;
  for_range 1 count (dump_byte buffer) ;;
  when (negb ack) (DbgPrint " NAK" []) ;;
  DbgPrint "\n" [] ;;
  let* b0 := peek buffer 0 in
  let* la := get LogicalAddress in
  if negb (Z.land b0 0xf =? la) then ret tt
  else if count <? 1 then ret tt
  else route_opcode buffer.

(** ** HomeSpanTVSpeaker *)

Definition HomeSpanTVSpeaker_update (this : nat) : M bool :=
  fun w => match speakers w !! this with
           | None => None
           | Some self =>
    (when (updated (volume self))
       (if getNewVal (volume self) =? 0 then
          emit (Serial_printf "Volume Up" []) ;;
          TransmitFrame 0x40 (cstr [0x46]) 1
        else
          emit (Serial_printf "Volume Down" []) ;;
          TransmitFrame 0x40 (cstr [0x8f]) 1) ;;
     when (updated (volumeType self))
       (emit (Serial_printf "Updated volume type\n" [])) ;;
     ret true) w
           end.

(** ** HomeSpanTV *)

Definition dquote : string := String.String (Ascii.ascii_of_nat 34) String.EmptyString.

(** One [case] of the remote key [switch]: print the key's name and send
    the frame. *)
Definition press (name : string) (buffer : list Z) : M unit :=
  emit (Serial_printf name []) ;;
  TransmitFrame 0x48 buffer 2.

Definition HomeSpanTV_update (this : nat) : M bool :=
  fun w => match televisions w !! this with
           | None => None
           | Some self =>
    (when (updated (active self))
       (emit (Serial_printf "Set TV Power to: %s\n"
                [ArgStr (if getNewVal (active self) =? 0 then "OFF" else "ON")]) ;;
        if negb (getNewVal (active self) =? 0) then
          TransmitFrame 0x0 (cstr [0x0d]) 1
        else
          TransmitFrame 0x0F (cstr [0x36]) 1) ;;
     when (updated (activeID self))
       (emit (Serial_printf "Set Input Source to HDMI-%d\n"
                [ArgInt (getNewVal (activeID self))])) ;;
     when (updated (settingsKey self))
       (emit (Serial_printf
                ("Received request to " ++ dquote ++ "View TV Settings" ++ dquote ++ "\n")%string
                [])) ;;
     when (updated (remoteKey self))
       (emit (Serial_printf "Remote Control key pressed: " []) ;;
        switch (getNewVal (remoteKey self))
          [ (4, press "UP ARROW\n" (cstr [0x44; 0x01]));
            (5, press "DOWN ARROW\n" (cstr [0x44; 0x02]));
            (6, press "LEFT ARROW\n" (cstr [0x44; 0x03]));
            (7, press "RIGHT ARROW\n" (cstr [0x44; 0x04]));
            (8, press "SELECT\n" (cstr [0x44; 0x44]));
            (9, press "BACK\n" (cstr [0x44; 0x09]));
            (11, press "PLAY/PAUSE\n" (cstr [0x44; 0x44]));
            (15, press "INFO\n" (cstr [0x44; 0x35])) ]
          (emit (Serial_print "UNKNOWN KEY\n"))) ;;
     ret true) w
           end.

End Sketch.

Arguments to_uchar : simpl never.

(** ** The CEC line

    [LineState] and [SetLineState] reach the line through the Arduino GPIO
    calls.  A function is given by the calls it makes, in order, with the
    arguments it passes; what [digitalRead] returns is an input. *)

Module Line.

Inductive PinMode :=
| INPUT_PULLUP
| OUTPUT.

Inductive Call :=
| digitalWrite (pin : Z) (level : Z)
| pinMode (pin : Z) (mode : PinMode)
| delayMicroseconds (us : Z).

Section Pins.

(** [LOW], a constant of Arduino.h. *)
Variable LOW : Z.

(** [int state = digitalRead(CEC_GPIO); return state != LOW;] *)
Definition LineState (digitalRead : Z -> Z) : bool :=
  let state := digitalRead CEC_GPIO in
  negb (state =? LOW).

Definition SetLineState (state : bool) : list Call :=
  (if state then
     [pinMode CEC_GPIO INPUT_PULLUP]
   else
     [digitalWrite CEC_GPIO LOW; pinMode CEC_GPIO OUTPUT])
  ++ [delayMicroseconds 50].

(** The calls made by a series of [SetLineState] calls. *)
Definition calls_of (states : list bool) : list Call :=
  flat_map SetLineState states.

End Pins.

End Line.

(** ** Vocabulary of the statements *)

(** [buffer_of bytes stale]: memory that holds [bytes] from index 0 on and
    [stale] everywhere else. *)
Definition buffer_of (bytes : list Z) (stale : Z) : Z -> Z :=
  fun i => if i <? 0 then stale else nth (Z.to_nat i) bytes stale.

(** [zrange lo n] is [lo; lo + 1; ...], [n] numbers. *)
Fixpoint zrange (lo : Z) (n : nat) : list Z :=
  match n with
  | O => []
  | S n' => lo :: zrange (lo + 1) n'
  end.

(** The diagnostic lines [OnReceiveComplete] prints for a frame. *)
Definition diagnostic_lines (now : Z) (buffer : Z -> Z) (count : Z) (ack : bool) : list Output :=
  Dbg "Packet received at %ld: %02X" [ArgInt now; ArgInt (buffer 0)]
  :: map (fun i => Dbg ":%02X" [ArgInt (buffer i)]) (zrange 1 (Z.to_nat (count - 1)))
  ++ (if ack then [] else [Dbg " NAK" []])
  ++ [Dbg "\n" []].

(** The world after the diagnostic lines of [OnReceiveComplete] and the
    read of the header for the destination test. *)
Definition after_diagnostics (buffer : Z -> Z) (count : Z) (ack : bool) (w : World) : World :=
  set_derefs (derefs w ++ 0 :: zrange 1 (Z.to_nat (count - 1)) ++ [0])
    (set_console (console w ++ diagnostic_lines (millis w) buffer count ack) w).

(** The indices [OnReceiveComplete] dereferences during one call. *)
Definition reads_of CDT (buffer : Z -> Z) (count : Z) (ack : bool) (w : World) : list Z :=
  match OnReceiveComplete CDT buffer count ack (set_derefs [] w) with
  | Some (_, w') => derefs w'
  | None => []
  end.

(** The handler hands the frame to the opcode routing: after its
    diagnostic lines it does what [route_opcode] does. *)
Definition routed CDT (buffer : Z -> Z) (count : Z) (ack : bool) (w : World) : Prop :=
  OnReceiveComplete CDT buffer count ack w =
  route_opcode CDT buffer (after_diagnostics buffer count ack w).

(** A world after [setup]: the device holds logical address 4 in
    promiscuous mode and is connected to the one television. *)
Definition promiscuous_world : World :=
  mkWorld 4 true (Some 0%nat)
    [mkTV (mkCharacteristic 0 0 false) (mkCharacteristic 3 3 false)
          (mkCharacteristic 0 0 false) (mkCharacteristic 0 0 false)]
    [mkSpeaker (mkCharacteristic 0 0 false) (mkCharacteristic 3 3 false)]
    1000 [] [] [].

(** The frame the power block of [HomeSpanTV::update] sends: one when the
    Active characteristic is updated, none otherwise. *)
Definition power_frames (self : HomeSpanTV) : list Frame :=
  if updated (active self) then
    [if getNewVal (active self) =? 0 then mkFrame 0x0F [0x36] else mkFrame 0x0 [0x0d]]
  else [].

(** The remote keys with a [case] of their own, each with the second byte
    of its frame. *)
Definition user_control_codes : list (Z * Z) :=
  [(4, 0x01); (5, 0x02); (6, 0x03); (7, 0x04);
   (8, 0x44); (9, 0x09); (11, 0x44); (15, 0x35)].

(** A world with one television, whose pending request is the remote key
    [k] and nothing else. *)
Definition key_world (k : Z) : World :=
  mkWorld 4 true (Some 0%nat)
    [mkTV (mkCharacteristic 0 0 false) (mkCharacteristic 3 3 false)
          (mkCharacteristic 0 k true) (mkCharacteristic 0 0 false)]
    [] 0 [] [] [].

(** The frames [HomeSpanTV::update] transmits for the key [k] alone. *)
Definition frames_for_key (k : Z) : list Frame :=
  match HomeSpanTV_update 0 (key_world k) with
  | Some (_, w') => transmitted w'
  | None => []
  end.

(** A world with one speaker, whose pending request is the volume
    selector with new value [v]. *)
Definition volume_world (v : Z) : World :=
  mkWorld 4 true None [] [mkSpeaker (mkCharacteristic 0 v true) (mkCharacteristic 3 3 false)]
    0 [] [] [].

(** A world with one television, whose pending request carries the
    unmapped remote key 10 and a power change to on. *)
Definition unknown_key_and_power_world : World :=
  mkWorld 4 true (Some 0%nat)
    [mkTV (mkCharacteristic 0 1 true) (mkCharacteristic 3 3 false)
          (mkCharacteristic 0 10 true) (mkCharacteristic 0 0 false)]
    [] 0 [] [] [].

(** The frame holds every byte [OnReceiveComplete] reads: the header; the
    opcode at index 1 when the frame is addressed to the device; the
    operand at index 2 when, besides, the header is 0x04 and the opcode
    0x90.  The model lets the handler read behind the frame as if the
    memory there were readable; the statements that say that the handler
    returns are made for frames that satisfy this condition. *)
Definition reads_inside_frame (buffer : Z -> Z) (count : Z) (w : World) : Prop :=
  1 <= count /\
  (Z.land (buffer 0) 0xf = LogicalAddress w ->
   2 <= count /\
   (buffer 0 = 0x04 -> buffer 1 = 0x90 -> 3 <= count)).

(** The indices [OnTransmitComplete] dereferences during one call. *)
Definition sent_reads_of (buffer : Z -> Z) (count : Z) (ack : bool) (w : World) : list Z :=
  match OnTransmitComplete buffer count ack (set_derefs [] w) with
  | Some (_, w') => derefs w'
  | None => []
  end.

(** The callbacks of the sketch, as the CEC engine and HomeSpan invoke
    them, each run to its end before the next. *)
Inductive Callback :=
| Ready (logicalAddress : Z)
| ReceiveComplete (buffer : Z -> Z) (count : Z) (ack : bool)
| TransmitComplete (buffer : Z -> Z) (count : Z) (ack : bool)
| UpdateTV (this : nat)
| UpdateSpeaker (this : nat).

Definition invoke CDT (c : Callback) : M unit :=
  match c with
  | Ready logicalAddress => OnReady CDT logicalAddress
  | ReceiveComplete buffer count ack => OnReceiveComplete CDT buffer count ack
  | TransmitComplete buffer count ack => OnTransmitComplete buffer count ack
  | UpdateTV this => HomeSpanTV_update this ;; ret tt
  | UpdateSpeaker this => HomeSpanTVSpeaker_update this ;; ret tt
  end.

Fixpoint invoke_all CDT (cs : list Callback) : M unit :=
  match cs with
  | [] => ret tt
  | c :: rest => invoke CDT c ;; invoke_all CDT rest
  end.

(** The frame handed to a completion callback holds every byte the
    callback reads. *)
Definition in_frame (w : World) (c : Callback) : Prop :=
  match c with
  | ReceiveComplete buffer count _ => reads_inside_frame buffer count w
  | TransmitComplete _ count _ => 1 <= count
  | _ => True
  end.

(** [update] is called on an object that exists. *)
Definition live (w : World) (c : Callback) : Prop :=
  match c with
  | UpdateTV this => (this < length (televisions w))%nat
  | UpdateSpeaker this => (this < length (speakers w))%nat
  | _ => True
  end.

(** Two televisions that differ at most in their Active characteristic. *)
Definition same_but_active (tv tv' : HomeSpanTV) : Prop :=
  activeID tv' = activeID tv /\
  remoteKey tv' = remoteKey tv /\
  settingsKey tv' = settingsKey tv.

(** What a callback may do to a world whose [connectedTV] is [p]: it
    appends to the transmit log and may write the Active characteristic
    of television [p]; the device, the pointer, the speakers and every
    other characteristic stay. *)
Definition evolves (p : nat) (w w' : World) : Prop :=
  connectedTV w' = connectedTV w /\
  LogicalAddress w' = LogicalAddress w /\
  Promiscuous w' = Promiscuous w /\
  speakers w' = speakers w /\
  length (televisions w') = length (televisions w) /\
  (exists more, transmitted w' = transmitted w ++ more) /\
  (forall q tv, televisions w !! q = Some tv ->
     exists tv', televisions w' !! q = Some tv' /\
                 same_but_active tv tv' /\
                 (q <> p -> tv' = tv)).

(** The frame the remote key block of [HomeSpanTV::update] sends: one
    when the remote key is updated with a key of [user_control_codes],
    none otherwise. *)
Definition key_frames (self : HomeSpanTV) : list Frame :=
  if updated (remoteKey self) then
    switch (getNewVal (remoteKey self))
      (map (fun kc => (fst kc, [mkFrame 0x48 [0x44; snd kc]])) user_control_codes)
      []
  else [].

(** The frame the volume block of [HomeSpanTVSpeaker::update] sends. *)
Definition volume_frames (self : HomeSpanTVSpeaker) : list Frame :=
  if updated (volume self) then
    [mkFrame 0x40 [if getNewVal (volume self) =? 0 then 0x46 else 0x8f]]
  else [].

(** The world before [SetTVDevice] is called: [connectedTV] is null. *)
Definition unconnected_world : World := set_connectedTV None promiscuous_world.

(** A world with one television, whose pending request is a power
    change to [v] and nothing else. *)
Definition power_world (v : Z) : World :=
  mkWorld 4 true (Some 0%nat)
    [mkTV (mkCharacteristic 0 v true) (mkCharacteristic 3 3 false)
          (mkCharacteristic 0 0 false) (mkCharacteristic 0 0 false)]
    [] 0 [] [] [].



(** A series of callbacks: a power report, an update, the ready
    callback, a request for the physical address, a transmit completion,
    an update. *)
Definition sample_callbacks : list Callback :=
  [ReceiveComplete (buffer_of [0x04; 0x90; 0x00] 0) 3 true;
   UpdateTV 0;
   Ready 4;
   ReceiveComplete (buffer_of [0x04; 0x83] 0xEE) 2 false;
   TransmitComplete (buffer_of [0x4f; 0x84; 0x30; 0x00; 0x04] 0) 5 true;
   UpdateSpeaker 0].

(** Two worlds that differ at most in what has been printed: the
    consoles are [pre1] and [pre2] followed by the same entries. *)
Definition agree (pre1 pre2 : list Output) (w1 w2 : World) : Prop :=
  LogicalAddress w1 = LogicalAddress w2 /\
  Promiscuous w1 = Promiscuous w2 /\
  connectedTV w1 = connectedTV w2 /\
  televisions w1 = televisions w2 /\
  speakers w1 = speakers w2 /\
  millis w1 = millis w2 /\
  transmitted w1 = transmitted w2 /\
  derefs w1 = derefs w2 /\
  exists tail, console w1 = pre1 ++ tail /\ console w2 = pre2 ++ tail.

(** A computation that does not look at the console: from two such
    worlds it gives the same result and two such worlds. *)
Definition console_blind {A} (pre1 pre2 : list Output) (m : M A) : Prop :=
  forall w1 w2, agree pre1 pre2 w1 w2 ->
    match m w1, m w2 with
    | Some (a1, w1'), Some (a2, w2') => a1 = a2 /\ agree pre1 pre2 w1' w2'
    | None, None => True
    | _, _ => False
    end.

(** * Properties *)

(** ** The monad's loops and switches *)

Lemma zrange_bounds n : forall lo i, In i (zrange lo n) -> lo <= i < lo + Z.of_nat n.
Proof.
  induction n as [|n IH]; intros lo i Hi; simpl in Hi; [contradiction|].
  destruct Hi as [<- | Hi]; [lia|].
  apply IH in Hi. lia.
Qed.

Lemma switch_default {A} (x : Z) (cases : list (Z * A)) (d : A) :
  Forall (fun c => x <> fst c) cases -> switch x cases d = d.
Proof.
  induction 1 as [|[c a] rest Hc _ IH]; simpl; [reflexivity|].
  simpl in Hc. apply Z.eqb_neq in Hc. rewrite Hc. exact IH.
Qed.

Lemma for_from_dump (buffer : Z -> Z) n : forall lo w,
  for_from lo n (dump_byte buffer) w =
  Some (tt, set_derefs (derefs w ++ zrange lo n)
              (set_console
                 (console w ++ map (fun i => Dbg ":%02X" [ArgInt (buffer i)]) (zrange lo n))
                 w)).
Proof.
  induction n as [|n IH]; intros lo w.
  - destruct w; simpl. unfold ret, set_derefs, set_console; simpl.
    now rewrite !app_nil_r.
  - simpl. unfold bind at 1. unfold dump_byte at 1.
    unfold bind, peek, DbgPrint, emit. simpl. rewrite IH.
    destruct w; unfold set_derefs, set_console; simpl.
    now rewrite <- !app_assoc.
Qed.

Lemma OnReceiveComplete_guards CDT buffer count ack w :
  OnReceiveComplete CDT buffer count ack w =
  (if negb (Z.land (buffer 0) 0xf =? LogicalAddress w) then ret tt
   else if count <? 1 then ret tt
   else route_opcode CDT buffer) (after_diagnostics buffer count ack w).
Proof.
  unfold OnReceiveComplete, for_range.
  unfold bind at 1. unfold get at 1.
  unfold bind at 1. unfold peek at 1.
  unfold bind at 1. unfold DbgPrint at 1, emit at 1.
  unfold bind at 1. rewrite for_from_dump.
  unfold after_diagnostics, diagnostic_lines.
  destruct ack; destruct w; unfold bind, when, ret, DbgPrint, emit, peek, get,
    set_derefs, set_console; simpl;
    rewrite <- ?app_assoc; simpl; rewrite ?app_nil_r; reflexivity.
Qed.

Lemma report_physical_address_buf_bytes CDT :
  take 4 (report_physical_address_buf CDT) = [0x84; 0x30; 0x00; to_uchar CDT].
Proof. reflexivity. Qed.

Ltac addressed_to_us Haddr Hcount :=
  rewrite OnReceiveComplete_guards;
  match goal with
  | |- context [Z.land ?b 15 =? ?la] =>
      replace (Z.land b 15 =? la) with true by (symmetry; apply Z.eqb_eq; exact Haddr)
  end;
  match goal with
  | |- context [?c <? 1] =>
      replace (c <? 1) with false by (symmetry; apply Z.ltb_ge; lia)
  end;
  cbn [negb].

(** C1 (as amended).  A frame whose destination nibble is not the logical
    address of the device is dropped by [OnReceiveComplete] after its
    diagnostic lines, whatever the promiscuous flag: no application state
    changes, no frame is transmitted, and the opcode routing is not
    reached. *)
Theorem OnReceiveComplete_drops_other_destinations CDT buffer count ack w :
  Z.land (buffer 0) 0xf <> LogicalAddress w ->
  exists w',
    OnReceiveComplete CDT buffer count ack w = Some (tt, w') /\
    ApplicationState w' = ApplicationState w /\
    transmitted w' = transmitted w /\
    console w' = console w ++ diagnostic_lines (millis w) buffer count ack /\
    Promiscuous w' = Promiscuous w.
Proof.
  intros Hdest. rewrite OnReceiveComplete_guards.
  apply Z.eqb_neq in Hdest. rewrite Hdest. cbn [negb].
  eexists. split; [reflexivity|]. now destruct w.
Qed.

Lemma OnReceiveComplete_drops_other_destinations_witness :
  Z.land (buffer_of [0x08; 0x83] 0 0) 0xf <> LogicalAddress promiscuous_world /\
  exists w',
    OnReceiveComplete 4 (buffer_of [0x08; 0x83] 0) 2 true promiscuous_world = Some (tt, w') /\
    ApplicationState w' = ApplicationState promiscuous_world /\
    transmitted w' = transmitted promiscuous_world /\
    console w' = console promiscuous_world ++
                 diagnostic_lines (millis promiscuous_world) (buffer_of [0x08; 0x83] 0) 2 true /\
    Promiscuous w' = Promiscuous promiscuous_world.
Proof.
  assert (H : Z.land (buffer_of [0x08; 0x83] 0 0) 0xf <> LogicalAddress promiscuous_world)
    by (vm_compute; discriminate).
  split; [exact H|].
  exact (OnReceiveComplete_drops_other_destinations 4 (buffer_of [0x08; 0x83] 0) 2 true
           promiscuous_world H).
Defined.

(** C1 (as stated, refuted).  With the promiscuous flag set, the frame
    [{0x08, 0x83}], sent to logical address 8 while the device holds 4, is
    not handed to the opcode routing: the routing would answer with a
    physical address report, the handler transmits nothing. *)
Lemma promiscuous_frame_for_other_device_not_routed :
  Promiscuous promiscuous_world = true /\
  Z.land (buffer_of [0x08; 0x83] 0 0) 0xf <> LogicalAddress promiscuous_world /\
  (exists w',
     OnReceiveComplete 4 (buffer_of [0x08; 0x83] 0) 2 true promiscuous_world = Some (tt, w') /\
     transmitted w' = []) /\
  (exists w',
     route_opcode 4 (buffer_of [0x08; 0x83] 0)
       (after_diagnostics (buffer_of [0x08; 0x83] 0) 2 true promiscuous_world) = Some (tt, w') /\
     transmitted w' = [mkFrame 0xf [0x84; 0x30; 0x00; 0x04]]) /\
  ~ routed 4 (buffer_of [0x08; 0x83] 0) 2 true promiscuous_world.
Proof.
  split; [reflexivity|]. split; [vm_compute; discriminate|].
  split; [eexists; split; reflexivity|].
  split; [eexists; split; reflexivity|].
  unfold routed. intros H.
  apply (f_equal (fun r => match r with
                           | Some (_, w') => transmitted w'
                           | None => []
                           end)) in H.
  vm_compute in H. discriminate.
Qed.

(** C3.  A frame addressed to the device whose opcode byte is 0x83 makes
    [OnReceiveComplete] call [TransmitFrame] once, for the broadcast
    address 0xF with the four bytes 0x84, 0x30, 0x00 and the device
    type. *)
Theorem give_physical_address_reported CDT buffer count ack w :
  2 <= count ->
  Z.land (buffer 0) 0xf = LogicalAddress w ->
  buffer 1 = 0x83 ->
  exists w',
    OnReceiveComplete CDT buffer count ack w = Some (tt, w') /\
    transmitted w' = transmitted w ++ [mkFrame 0xf [0x84; 0x30; 0x00; to_uchar CDT]] /\
    ApplicationState w' = ApplicationState w.
Proof.
  intros Hcount Haddr Hop. addressed_to_us Haddr Hcount.
  unfold route_opcode, bind, peek, DbgPrint, emit, TransmitFrame. cbn.
  rewrite Hop. cbn.
  destruct (buffer 0 =? 4); cbn;
    (eexists; split; [reflexivity|]; destruct w; split; reflexivity).
Qed.

Lemma give_physical_address_reported_witness :
  2 <= 2 /\
  Z.land (buffer_of [0x04; 0x83] 0 0) 0xf = LogicalAddress promiscuous_world /\
  buffer_of [0x04; 0x83] 0 1 = 0x83 /\
  exists w',
    OnReceiveComplete 4 (buffer_of [0x04; 0x83] 0) 2 true promiscuous_world = Some (tt, w') /\
    transmitted w' = transmitted promiscuous_world ++ [mkFrame 0xf [0x84; 0x30; 0x00; to_uchar 4]] /\
    ApplicationState w' = ApplicationState promiscuous_world.
Proof.
  split; [lia|]. split; [reflexivity|]. split; [reflexivity|].
  apply (give_physical_address_reported 4 (buffer_of [0x04; 0x83] 0) 2 true promiscuous_world).
  - lia.
  - reflexivity.
  - reflexivity.
Defined.

(** C4.  [OnReady] calls [TransmitFrame] once, for the broadcast address
    0xF with the four bytes 0x84, 0x30, 0x00 and the device type, whatever
    logical address was allocated. *)
Theorem OnReady_reports_physical_address CDT logicalAddress w :
  exists w',
    OnReady CDT logicalAddress w = Some (tt, w') /\
    transmitted w' = transmitted w ++ [mkFrame 0xf [0x84; 0x30; 0x00; to_uchar CDT]] /\
    ApplicationState w' = ApplicationState w.
Proof.
  eexists. split; [reflexivity|]. destruct w; split; reflexivity.
Qed.

(** C9.  A frame addressed to the device makes [OnReceiveComplete] call
    [TransmitFrame] once: with opcode 0x8C, for the broadcast address 0xF
    with the vendor id bytes 0x87, 0x01, 0x23, 0x45; with opcode 0x46, for
    the target 0x4F with the name bytes 0x47, 0x52, 0x44, 0x4D. *)
Theorem vendor_id_and_osd_name_answered CDT buffer count ack w :
  2 <= count ->
  Z.land (buffer 0) 0xf = LogicalAddress w ->
  (buffer 1 = 0x8c ->
   exists w',
     OnReceiveComplete CDT buffer count ack w = Some (tt, w') /\
     transmitted w' = transmitted w ++ [mkFrame 0xf [0x87; 0x01; 0x23; 0x45]] /\
     ApplicationState w' = ApplicationState w) /\
  (buffer 1 = 0x46 ->
   exists w',
     OnReceiveComplete CDT buffer count ack w = Some (tt, w') /\
     transmitted w' = transmitted w ++ [mkFrame 0x4f [0x47; 0x52; 0x44; 0x4d]] /\
     ApplicationState w' = ApplicationState w).
Proof.
  intros Hcount Haddr. split; intros Hop; addressed_to_us Haddr Hcount;
    unfold route_opcode, bind, peek, DbgPrint, emit, TransmitFrame; cbn;
    rewrite Hop; cbn;
    destruct (buffer 0 =? 4); cbn;
    (eexists; split; [reflexivity|]; destruct w; split; reflexivity).
Qed.

Lemma vendor_id_and_osd_name_answered_witness :
  (2 <= 2 /\
   Z.land (buffer_of [0x04; 0x8c] 0 0) 0xf = LogicalAddress promiscuous_world /\
   buffer_of [0x04; 0x8c] 0 1 = 0x8c /\
   exists w',
     OnReceiveComplete 4 (buffer_of [0x04; 0x8c] 0) 2 true promiscuous_world = Some (tt, w') /\
     transmitted w' = transmitted promiscuous_world ++ [mkFrame 0xf [0x87; 0x01; 0x23; 0x45]] /\
     ApplicationState w' = ApplicationState promiscuous_world) /\
  (2 <= 2 /\
   Z.land (buffer_of [0x04; 0x46] 0 0) 0xf = LogicalAddress promiscuous_world /\
   buffer_of [0x04; 0x46] 0 1 = 0x46 /\
   exists w',
     OnReceiveComplete 4 (buffer_of [0x04; 0x46] 0) 2 true promiscuous_world = Some (tt, w') /\
     transmitted w' = transmitted promiscuous_world ++ [mkFrame 0x4f [0x47; 0x52; 0x44; 0x4d]] /\
     ApplicationState w' = ApplicationState promiscuous_world).
Proof.
  split; (split; [lia|]; split; [reflexivity|]; split; [reflexivity|]).
  - apply (vendor_id_and_osd_name_answered 4 (buffer_of [0x04; 0x8c] 0) 2 true
             promiscuous_world); [lia | reflexivity | reflexivity].
  - apply (vendor_id_and_osd_name_answered 4 (buffer_of [0x04; 0x46] 0) 2 true
             promiscuous_world); [lia | reflexivity | reflexivity].
Defined.

(** C6.  A frame addressed to the device with header 0x04 and opcode 0x90:
    when the operand byte is 0x00, [OnReceiveComplete] sets the Active
    characteristic of the connected television to 1 (true) and touches no
    other object; when the operand is not zero the application state is
    left as it was.  No frame is transmitted either way. *)
Theorem report_power_status_sets_active CDT buffer count ack w :
  3 <= count ->
  buffer 0 = 0x04 ->
  Z.land (buffer 0) 0xf = LogicalAddress w ->
  buffer 1 = 0x90 ->
  (buffer 2 = 0x00 ->
   forall p tv, connectedTV w = Some p -> televisions w !! p = Some tv ->
   exists w' tv',
     OnReceiveComplete CDT buffer count ack w = Some (tt, w') /\
     televisions w' = <[p := tv']> (televisions w) /\
     televisions w' !! p = Some tv' /\
     getVal (active tv') = 1 /\
     tv' = with_active (setVal 1 (active tv)) tv /\
     speakers w' = speakers w /\
     transmitted w' = transmitted w) /\
  (buffer 2 <> 0x00 ->
   exists w',
     OnReceiveComplete CDT buffer count ack w = Some (tt, w') /\
     ApplicationState w' = ApplicationState w /\
     transmitted w' = transmitted w).
Proof.
  intros Hcount Hhdr Haddr Hop. split.
  - intros Hoperand p tv Hptr Hcell. addressed_to_us Haddr Hcount.
    unfold route_opcode, bind, peek, DbgPrint, emit, connectedTV_active_setVal. cbn.
    rewrite Hop, Hhdr, Hoperand. cbn. rewrite Hptr, Hcell.
    eexists _, _. split; [reflexivity|]. cbn. split; [reflexivity|].
    split; [|repeat split].
    apply list_lookup_insert_eq. now apply lookup_lt_Some in Hcell.
  - intros Hoperand. addressed_to_us Haddr Hcount.
    unfold route_opcode, bind, peek, DbgPrint, emit, connectedTV_active_setVal. cbn.
    rewrite Hop, Hhdr. cbn. apply Z.eqb_neq in Hoperand. rewrite Hoperand.
    eexists. split; [reflexivity|]. destruct w; split; reflexivity.
Qed.

Lemma report_power_status_sets_active_witness :
  (3 <= 3 /\
   buffer_of [0x04; 0x90; 0x00] 0 0 = 0x04 /\
   Z.land (buffer_of [0x04; 0x90; 0x00] 0 0) 0xf = LogicalAddress promiscuous_world /\
   buffer_of [0x04; 0x90; 0x00] 0 1 = 0x90 /\
   buffer_of [0x04; 0x90; 0x00] 0 2 = 0x00 /\
   exists w' tv',
     OnReceiveComplete 4 (buffer_of [0x04; 0x90; 0x00] 0) 3 true promiscuous_world
       = Some (tt, w') /\
     televisions w' !! 0%nat = Some tv' /\
     getVal (active tv') = 1) /\
  (buffer_of [0x04; 0x90; 0x01] 0 2 <> 0x00 /\
   exists w',
     OnReceiveComplete 4 (buffer_of [0x04; 0x90; 0x01] 0) 3 true promiscuous_world
       = Some (tt, w') /\
     ApplicationState w' = ApplicationState promiscuous_world /\
     transmitted w' = transmitted promiscuous_world).
Proof.
  split.
  - split; [lia|]. do 4 (split; [reflexivity|]).
    destruct (report_power_status_sets_active 4 (buffer_of [0x04; 0x90; 0x00] 0) 3 true
                promiscuous_world) as [Hzero _]; [lia | reflexivity | reflexivity | reflexivity |].
    destruct (Hzero eq_refl 0%nat _ eq_refl eq_refl)
      as (w' & tv' & Hrun & _ & Hcell & Hval & _).
    exists w', tv'. repeat split; assumption.
  - assert (Hne : buffer_of [0x04; 0x90; 0x01] 0 2 <> 0x00) by (vm_compute; discriminate).
    split; [exact Hne|].
    destruct (report_power_status_sets_active 4 (buffer_of [0x04; 0x90; 0x01] 0) 3 true
                promiscuous_world) as [_ Hnonzero];
      [lia | reflexivity | reflexivity | reflexivity |].
    exact (Hnonzero Hne).
Defined.

(** The same frame before [SetTVDevice] has been called: the null
    [connectedTV] is dereferenced. *)
Lemma report_power_status_without_television CDT buffer count ack w :
  1 <= count ->
  buffer 0 = 0x04 ->
  Z.land (buffer 0) 0xf = LogicalAddress w ->
  buffer 1 = 0x90 ->
  buffer 2 = 0x00 ->
  connectedTV w = None ->
  OnReceiveComplete CDT buffer count ack w = None.
Proof.
  intros Hcount Hhdr Haddr Hop Hoperand Hnull. addressed_to_us Haddr Hcount.
  unfold route_opcode, bind, peek, DbgPrint, emit, connectedTV_active_setVal. cbn.
  rewrite Hop, Hhdr, Hoperand. cbn. now rewrite Hnull.
Qed.

Ltac split_ifs :=
  repeat match goal with
         | |- context [if ?c then _ else _] => destruct c; cbn
         end.

(** What [route_opcode] dereferences: indices 0, 1 and 2 only. *)
Lemma route_opcode_reads CDT buffer w :
  match route_opcode CDT buffer w with
  | Some (_, w') =>
      exists extra, derefs w' = derefs w ++ extra /\ Forall (fun i => 0 <= i <= 2) extra
  | None => True
  end.
Proof.
  unfold route_opcode, bind, peek, DbgPrint, emit, TransmitFrame,
    connectedTV_active_setVal. cbn.
  split_ifs;
    try (destruct (connectedTV w) as [p|]; cbn; [destruct (televisions w !! p); cbn|]);
    try exact I;
    rewrite <- ?app_assoc; eexists; (split; [reflexivity|]);
    repeat constructor; lia.
Qed.

(** X3.  On a frame of three bytes or more every index
    [OnReceiveComplete] reads is below [count]. *)
Lemma reads_below_count_of_long_frames CDT buffer count ack w :
  3 <= count -> Forall (fun i => 0 <= i < count) (reads_of CDT buffer count ack w).
Proof.
  intros Hcount. unfold reads_of. rewrite OnReceiveComplete_guards.
  set (w1 := after_diagnostics buffer count ack (set_derefs [] w)).
  assert (Hd : Forall (fun i => 0 <= i < count) (derefs w1)).
  { cbn. constructor; [lia|]. apply Forall_app. split.
    - apply List.Forall_forall. intros i Hi. apply zrange_bounds in Hi. lia.
    - repeat constructor; lia. }
  destruct (negb _); [exact Hd|].
  destruct (count <? 1); [exact Hd|].
  pose proof (route_opcode_reads CDT buffer w1) as Hr.
  destruct (route_opcode CDT buffer w1) as [[u w']|]; [|constructor].
  destruct Hr as (extra & -> & Hextra).
  apply Forall_app. split; [exact Hd|].
  eapply Forall_impl; [exact Hextra|]. cbn. intros; lia.
Qed.

(** C2 (the code departs from it).  With the television connected, on a
    frame addressed to the device [OnReceiveComplete] reads index 1 when
    [count] is 1, and with header 0x04 and opcode 0x90 it reads index 2
    when [count] is 2: neither index is below [count]. *)
Theorem OnReceiveComplete_reads_past_count CDT buffer ack w p tv :
  connectedTV w = Some p ->
  televisions w !! p = Some tv ->
  Z.land (buffer 0) 0xf = LogicalAddress w ->
  In 1 (reads_of CDT buffer 1 ack w) /\
  (buffer 0 = 0x04 -> buffer 1 = 0x90 -> In 2 (reads_of CDT buffer 2 ack w)).
Proof.
  intros Hptr Hcell Haddr. split; [|intros Hhdr Hop]; unfold reads_of;
    rewrite OnReceiveComplete_guards; cbn [LogicalAddress set_derefs];
    (replace (Z.land (buffer 0) 15 =? LogicalAddress w) with true
       by (symmetry; apply Z.eqb_eq; exact Haddr));
    unfold route_opcode, bind, peek, DbgPrint, emit, TransmitFrame,
      connectedTV_active_setVal; cbn.
  - split_ifs; rewrite ?Hptr; cbn; rewrite ?Hcell; cbn;
      rewrite ?List.in_app_iff; cbn; tauto.
  - rewrite Hop, Hhdr. cbn.
    split_ifs; rewrite ?Hptr; cbn; rewrite ?Hcell; cbn;
      rewrite ?List.in_app_iff; cbn; tauto.
Qed.

Lemma OnReceiveComplete_reads_past_count_witness :
  connectedTV promiscuous_world = Some 0%nat /\
  Z.land (buffer_of [0x04] 0xEE 0) 0xf = LogicalAddress promiscuous_world /\
  In 1 (reads_of 4 (buffer_of [0x04] 0xEE) 1 true promiscuous_world) /\
  In 2 (reads_of 4 (buffer_of [0x04; 0x90] 0xEE) 2 true promiscuous_world).
Proof.
  split; [reflexivity|]. split; [reflexivity|]. split.
  - apply (OnReceiveComplete_reads_past_count 4 (buffer_of [0x04] 0xEE) true
             promiscuous_world 0%nat _ eq_refl eq_refl eq_refl).
  - apply (OnReceiveComplete_reads_past_count 4 (buffer_of [0x04; 0x90] 0xEE) true
             promiscuous_world 0%nat _ eq_refl eq_refl eq_refl); reflexivity.
Defined.

(** The run of the handler on the header-only frame [{0x04}]: the bytes
    read are those at 0, 0, 1, 0, 1: the frame is routed on the stale byte
    at index 1.  On [{0x04, 0x90}] the operand is read at index 2. *)
Example header_only_frame_reads :
  reads_of 4 (buffer_of [0x04] 0xEE) 1 true promiscuous_world = [0; 0; 1; 0; 1] /\
  reads_of 4 (buffer_of [0x04; 0x90] 0xEE) 2 true promiscuous_world = [0; 1; 0; 1; 0; 1; 2].
Proof. split; reflexivity. Qed.

Lemma power_frames_one_byte self :
  Forall (fun f => length (payload f) = 1%nat) (power_frames self).
Proof.
  unfold power_frames. destruct (updated (active self)); [|constructor].
  destruct (getNewVal (active self) =? 0); repeat constructor.
Qed.

Ltac split_flags self :=
  unfold power_frames;
  destruct (updated (active self)); cbn;
  [destruct (getNewVal (active self) =? 0); cbn|];
  destruct (updated (activeID self)); cbn;
  destruct (updated (settingsKey self)); cbn.

(** C5.  When the volume selector of the speaker is updated, [update]
    calls [TransmitFrame] once: for target 0x40 with the single byte 0x46
    when the new value is 0 (volume up), with the single byte 0x8F for any
    other new value (volume down). *)
Theorem speaker_update_sends_volume_key this self w :
  speakers w !! this = Some self ->
  updated (volume self) = true ->
  exists w',
    HomeSpanTVSpeaker_update this w = Some (true, w') /\
    (getNewVal (volume self) = 0 ->
     transmitted w' = transmitted w ++ [mkFrame 0x40 [0x46]]) /\
    (getNewVal (volume self) <> 0 ->
     transmitted w' = transmitted w ++ [mkFrame 0x40 [0x8f]]) /\
    ApplicationState w' = ApplicationState w.
Proof.
  intros Hcell Hupd. unfold HomeSpanTVSpeaker_update. rewrite Hcell, Hupd.
  unfold bind, when, emit, TransmitFrame, ret.
  destruct (getNewVal (volume self) =? 0) eqn:Hv;
    [apply Z.eqb_eq in Hv | apply Z.eqb_neq in Hv];
    destruct (updated (volumeType self)); cbn;
    (eexists; split; [reflexivity|]; destruct w; cbn;
     repeat split; intros; solve [reflexivity | contradiction]).
Qed.

Lemma speaker_update_sends_volume_key_witness :
  speakers (volume_world 0) !! 0%nat
    = Some (mkSpeaker (mkCharacteristic 0 0 true) (mkCharacteristic 3 3 false)) /\
  exists w',
    HomeSpanTVSpeaker_update 0 (volume_world 0) = Some (true, w') /\
    transmitted w' = [mkFrame 0x40 [0x46]].
Proof.
  split; [reflexivity|].
  destruct (speaker_update_sends_volume_key 0 _ (volume_world 0) eq_refl eq_refl)
    as (w' & Hrun & Hup & _).
  exists w'. split; [exact Hrun|]. exact (Hup eq_refl).
Defined.

(** C7 (as amended).  When the remote key characteristic is updated with
    one of the keys 4, 5, 6, 7, 8, 9, 11, 15, [update] calls
    [TransmitFrame] once for target 0x48 with two bytes, 0x44 and the code
    the key has in [user_control_codes]; the only other frame of the call
    is the one-byte frame of a power change in the same request.  The code
    is a function of the key; it is not one-to-one. *)
Theorem remote_key_sends_user_control_pressed this self w c :
  televisions w !! this = Some self ->
  updated (remoteKey self) = true ->
  In (getNewVal (remoteKey self), c) user_control_codes ->
  exists w',
    HomeSpanTV_update this w = Some (true, w') /\
    transmitted w' = transmitted w ++ power_frames self ++ [mkFrame 0x48 [0x44; c]] /\
    Forall (fun f => length (payload f) = 1%nat) (power_frames self) /\
    (updated (active self) = false ->
     transmitted w' = transmitted w ++ [mkFrame 0x48 [0x44; c]]) /\
    ApplicationState w' = ApplicationState w.
Proof.
  intros Hcell Hupd Hkey. unfold HomeSpanTV_update. rewrite Hcell, Hupd.
  unfold user_control_codes in Hkey. cbn in Hkey.
  assert (Hone := power_frames_one_byte self).
  repeat (destruct Hkey as [Hkey | Hkey]; [injection Hkey as Hk <-; rewrite <- Hk|]);
    try contradiction;
    unfold bind, when, emit, TransmitFrame, ret, press; cbn;
    revert Hone; split_flags self; intros Hone;
    (eexists; split; [reflexivity|]; destruct w; cbn;
     rewrite <- ?app_assoc; repeat split; try reflexivity; try assumption;
     intros; discriminate).
Qed.

Lemma remote_key_sends_user_control_pressed_witness :
  televisions (key_world 4) !! 0%nat
    = Some (mkTV (mkCharacteristic 0 0 false) (mkCharacteristic 3 3 false)
                 (mkCharacteristic 0 4 true) (mkCharacteristic 0 0 false)) /\
  In (4, 0x01) user_control_codes /\
  exists w',
    HomeSpanTV_update 0 (key_world 4) = Some (true, w') /\
    transmitted w' = [mkFrame 0x48 [0x44; 0x01]].
Proof.
  split; [reflexivity|]. split; [left; reflexivity|].
  destruct (remote_key_sends_user_control_pressed 0 _ (key_world 4) 0x01 eq_refl eq_refl
              (or_introl eq_refl)) as (w' & Hrun & Hsent & _).
  exists w'. split; [exact Hrun|]. exact Hsent.
Defined.

(** C7 (as stated, refuted).  The key code is not determined one-to-one
    by the key: SELECT (8) and PLAY/PAUSE (11) send the same frame. *)
Lemma select_and_play_pause_share_a_code :
  frames_for_key 8 = [mkFrame 0x48 [0x44; 0x44]] /\
  frames_for_key 11 = [mkFrame 0x48 [0x44; 0x44]] /\
  ~ (forall k1 k2, In k1 (map fst user_control_codes) -> In k2 (map fst user_control_codes) ->
       frames_for_key k1 = frames_for_key k2 -> k1 = k2).
Proof.
  split; [reflexivity|]. split; [reflexivity|].
  intros Hinj. specialize (Hinj 8 11). cbn in Hinj.
  assert (H : 8 = 11) by (apply Hinj; [tauto | tauto | reflexivity]).
  discriminate H.
Qed.

(** C8 (as amended).  When the remote key characteristic is updated with
    a value that is none of 4, 5, 6, 7, 8, 9, 11, 15, [update] prints the
    unknown key line, returns [true], leaves the application state as it
    was and sends no frame for the key: what is transmitted is what the
    power block of the same call sends, nothing when the request carries
    no power change. *)
Theorem unknown_remote_key_is_ignored this self w :
  televisions w !! this = Some self ->
  updated (remoteKey self) = true ->
  ~ In (getNewVal (remoteKey self)) [4; 5; 6; 7; 8; 9; 11; 15] ->
  exists w',
    HomeSpanTV_update this w = Some (true, w') /\
    (exists before,
       console w' = console w ++ before ++
                    [Serial_printf "Remote Control key pressed: " [];
                     Serial_print "UNKNOWN KEY\n"]) /\
    transmitted w' = transmitted w ++ power_frames self /\
    (updated (active self) = false -> transmitted w' = transmitted w) /\
    ApplicationState w' = ApplicationState w.
Proof.
  intros Hcell Hupd Hkey. unfold HomeSpanTV_update. rewrite Hcell, Hupd.
  rewrite switch_default.
  2:{ repeat (constructor; [cbn; intros Heq; apply Hkey; rewrite Heq; cbn; tauto|]).
      constructor. }
  unfold bind, when, emit, TransmitFrame, ret. cbn.
  split_flags self;
    (eexists; split; [reflexivity|]; destruct w; cbn;
     rewrite <- ?app_assoc, ?app_nil_r; cbn; split;
     [ match goal with
       | |- exists before, ?c ++ ?l = ?c ++ before ++ _ =>
           exists (removelast (removelast l)); reflexivity
       | |- exists before, ?c ++ ?l = ?c ++ _ =>
           exists []; reflexivity
       end
     | repeat split; try reflexivity; intros; discriminate ]).
Qed.

Lemma unknown_remote_key_is_ignored_witness :
  televisions (key_world 10) !! 0%nat
    = Some (mkTV (mkCharacteristic 0 0 false) (mkCharacteristic 3 3 false)
                 (mkCharacteristic 0 10 true) (mkCharacteristic 0 0 false)) /\
  ~ In 10 [4; 5; 6; 7; 8; 9; 11; 15] /\
  exists w',
    HomeSpanTV_update 0 (key_world 10) = Some (true, w') /\
    transmitted w' = transmitted (key_world 10) /\
    ApplicationState w' = ApplicationState (key_world 10).
Proof.
  assert (Hkey : ~ In 10 [4; 5; 6; 7; 8; 9; 11; 15])
    by (cbn; intros H; repeat (destruct H as [H | H]; [discriminate H|]); exact H).
  split; [reflexivity|]. split; [exact Hkey|].
  destruct (unknown_remote_key_is_ignored 0 _ (key_world 10) eq_refl eq_refl Hkey)
    as (w' & Hrun & _ & _ & Hsent & Happ).
  exists w'. split; [exact Hrun|]. split; [exact (Hsent eq_refl) | exact Happ].
Defined.

(** C8 (as stated, refuted).  A request that carries the unmapped key 10
    together with a power change to on transmits a frame: the power frame
    [{0x0D}] for target 0x0. *)
Lemma unknown_key_with_power_change_sends_a_frame :
  televisions unknown_key_and_power_world !! 0%nat
    = Some (mkTV (mkCharacteristic 0 1 true) (mkCharacteristic 3 3 false)
                 (mkCharacteristic 0 10 true) (mkCharacteristic 0 0 false)) /\
  ~ In 10 [4; 5; 6; 7; 8; 9; 11; 15] /\
  exists w',
    HomeSpanTV_update 0 unknown_key_and_power_world = Some (true, w') /\
    transmitted unknown_key_and_power_world = [] /\
    transmitted w' = [mkFrame 0x0 [0x0d]] /\
    transmitted w' <> transmitted unknown_key_and_power_world.
Proof.
  split; [reflexivity|]. split.
  - cbn. intros H. repeat (destruct H as [H | H]; [discriminate H|]). exact H.
  - eexists. split; [reflexivity|]. split; [reflexivity|]. split; [reflexivity|].
    discriminate.
Qed.

(** * Further properties of the callbacks *)

(** ** OnTransmitComplete *)

Lemma OnTransmitComplete_run buffer count ack w :
  OnTransmitComplete buffer count ack w =
  Some (tt,
        set_derefs (derefs w ++ 0 :: zrange 1 (Z.to_nat (count - 1)))
          (set_console
             (console w ++
              Dbg "Packet sent at %ld: %02X" [ArgInt (millis w); ArgInt (buffer 0)]
              :: map (fun i => Dbg ":%02X" [ArgInt (buffer i)]) (zrange 1 (Z.to_nat (count - 1)))
              ++ (if ack then [] else [Dbg " NAK" []])
              ++ [Dbg "\n" []]) w)).
Proof.
  unfold OnTransmitComplete, for_range.
  unfold bind at 1. unfold get at 1.
  unfold bind at 1. unfold peek at 1.
  unfold bind at 1. unfold DbgPrint at 1, emit at 1.
  unfold bind at 1. rewrite for_from_dump.
  destruct ack; destruct w; unfold bind, when, ret, DbgPrint, emit,
    set_derefs, set_console; simpl;
    rewrite <- ?app_assoc; simpl; rewrite ?app_nil_r; reflexivity.
Qed.

Lemma zrange_from_0 count :
  1 <= count -> 0 :: zrange 1 (Z.to_nat (count - 1)) = zrange 0 (Z.to_nat count).
Proof.
  intros H. replace (Z.to_nat count) with (S (Z.to_nat (count - 1))) by lia.
  reflexivity.
Qed.

Lemma zrange_length n : forall lo, length (zrange lo n) = n.
Proof. induction n as [|n IH]; intros lo; simpl; [reflexivity|]. now rewrite IH. Qed.


(** X2.  [OnTransmitComplete] reads the bytes of the frame and no other:
    for [count >= 1] the indices 0, 1, ..., [count - 1], each once and in
    this order.  For [count <= 0] it still reads index 0. *)
Theorem OnTransmitComplete_reads_the_frame buffer count ack w :
  (1 <= count -> sent_reads_of buffer count ack w = zrange 0 (Z.to_nat count)) /\
  (count <= 0 -> sent_reads_of buffer count ack w = [0]).
Proof.
  unfold sent_reads_of. rewrite OnTransmitComplete_run. cbn. split; intros H.
  - now apply zrange_from_0.
  - replace (Z.to_nat (count - 1)) with 0%nat by lia. reflexivity.
Qed.

Lemma OnTransmitComplete_reads_the_frame_witness :
  (1 <= 3 /\
   sent_reads_of (buffer_of [0x40; 0x44; 0x01] 0) 3 true promiscuous_world = [0; 1; 2]) /\
  (0 <= 0 /\
   sent_reads_of (buffer_of [] 0xEE) 0 true promiscuous_world = [0]).
Proof.
  split; (split; [lia|]).
  - apply (OnTransmitComplete_reads_the_frame (buffer_of [0x40; 0x44; 0x01] 0) 3 true
             promiscuous_world). lia.
  - apply (OnTransmitComplete_reads_the_frame (buffer_of [] 0xEE) 0 true
             promiscuous_world). lia.
Defined.

(** ** OnReceiveComplete *)

Lemma reads_below_count_of_long_frames_witness :
  3 <= 3 /\
  Forall (fun i => 0 <= i < 3)
    (reads_of 4 (buffer_of [0x04; 0x90; 0x00] 0) 3 true promiscuous_world).
Proof.
  split; [lia|].
  apply (reads_below_count_of_long_frames 4 (buffer_of [0x04; 0x90; 0x00] 0) 3 true
           promiscuous_world). lia.
Defined.

(** X4.  On a frame for another destination [OnReceiveComplete] reads
    index 0, the indices 1, ..., [count - 1] and index 0 again, and stops:
    with [count >= 1] every index read is below [count]. *)
Theorem other_destination_reads_the_frame CDT buffer count ack w :
  Z.land (buffer 0) 0xf <> LogicalAddress w ->
  reads_of CDT buffer count ack w = 0 :: zrange 1 (Z.to_nat (count - 1)) ++ [0] /\
  (1 <= count -> Forall (fun i => 0 <= i < count) (reads_of CDT buffer count ack w)).
Proof.
  intros Hdest.
  assert (Hreads : reads_of CDT buffer count ack w
                   = 0 :: zrange 1 (Z.to_nat (count - 1)) ++ [0]).
  { unfold reads_of. rewrite OnReceiveComplete_guards. cbn [LogicalAddress set_derefs].
    apply Z.eqb_neq in Hdest. rewrite Hdest. reflexivity. }
  split; [exact Hreads|]. intros Hcount. rewrite Hreads.
  constructor; [lia|]. apply Forall_app. split.
  - apply List.Forall_forall. intros i Hi. apply zrange_bounds in Hi. lia.
  - repeat constructor; lia.
Qed.

Lemma other_destination_reads_the_frame_witness :
  Z.land (buffer_of [0x08; 0x83] 0 0) 0xf <> LogicalAddress promiscuous_world /\
  reads_of 4 (buffer_of [0x08; 0x83] 0) 2 true promiscuous_world = [0; 1; 0] /\
  1 <= 2 /\
  Forall (fun i => 0 <= i < 2) (reads_of 4 (buffer_of [0x08; 0x83] 0) 2 true promiscuous_world).
Proof.
  assert (H : Z.land (buffer_of [0x08; 0x83] 0 0) 0xf <> LogicalAddress promiscuous_world)
    by (vm_compute; discriminate).
  destruct (other_destination_reads_the_frame 4 (buffer_of [0x08; 0x83] 0) 2 true
              promiscuous_world H) as [Hreads Hbound].
  split; [exact H|]. split; [exact Hreads|]. split; [lia|]. apply Hbound. lia.
Defined.



Ltac split_ifs_eqn :=
  repeat match goal with
         | |- context [if ?c then _ else _] => destruct c eqn:?; cbn
         end.

Ltac eqb_facts :=
  repeat match goal with
         | H : (_ =? _) = true |- _ => apply Z.eqb_eq in H
         | H : (_ =? _) = false |- _ => apply Z.eqb_neq in H
         | H : (_ <? _) = true |- _ => apply Z.ltb_lt in H
         | H : (_ <? _) = false |- _ => apply Z.ltb_ge in H
         end.

(** What the opcode routing does when [connectedTV] points to a
    television: it answers with at most one of three frames and may set
    the Active characteristic of that television. *)
Lemma route_opcode_effect CDT buffer w p tv :
  connectedTV w = Some p ->
  televisions w !! p = Some tv ->
  exists w' answer,
    route_opcode CDT buffer w = Some (tt, w') /\
    transmitted w' = transmitted w ++ answer /\
    (answer = [] \/
     answer = [mkFrame 0xf [0x84; 0x30; 0x00; to_uchar CDT]] \/
     answer = [mkFrame 0xf [0x87; 0x01; 0x23; 0x45]] \/
     answer = [mkFrame 0x4f [0x47; 0x52; 0x44; 0x4d]]) /\
    connectedTV w' = connectedTV w /\
    LogicalAddress w' = LogicalAddress w /\
    Promiscuous w' = Promiscuous w /\
    speakers w' = speakers w /\
    (televisions w' = televisions w \/
     televisions w' = <[p := with_active (setVal 1 (active tv)) tv]> (televisions w)).
Proof.
  intros Hptr Hcell.
  unfold route_opcode, bind, peek, DbgPrint, emit, TransmitFrame,
    connectedTV_active_setVal. cbn.
  split_ifs; rewrite ?Hptr; cbn; rewrite ?Hcell; cbn;
    eexists;
    first
      [ exists []; split; [reflexivity|]; split;
        [destruct w; cbn; now rewrite app_nil_r|]
      | eexists; split; [reflexivity|]; split; [destruct w; reflexivity|] ];
    destruct w; cbn;
    repeat split;
    first [ reflexivity
          | left; reflexivity
          | right; reflexivity
          | right; left; reflexivity
          | right; right; left; reflexivity
          | right; right; right; reflexivity
          | cbn in Hptr; congruence ].
Qed.

Lemma header_reads_inside_frame count :
  1 <= count ->
  Forall (fun i => 0 <= i < count) (0 :: zrange 1 (Z.to_nat (count - 1)) ++ [0]).
Proof.
  intros Hcount. constructor; [lia|]. apply Forall_app. split.
  - apply List.Forall_forall. intros i Hi. apply zrange_bounds in Hi. lia.
  - repeat constructor; lia.
Qed.

(** On a frame that satisfies [reads_inside_frame], every index the
    handler reads is below [count]. *)
Lemma reads_inside_frame_sound CDT buffer count ack w p tv :
  reads_inside_frame buffer count w ->
  connectedTV w = Some p ->
  televisions w !! p = Some tv ->
  Forall (fun i => 0 <= i < count) (reads_of CDT buffer count ack w).
Proof.
  intros [Hcount Hframe] Hptr Hcell. unfold reads_of. rewrite OnReceiveComplete_guards.
  cbn [LogicalAddress set_derefs].
  pose proof (header_reads_inside_frame count Hcount) as Hhdr.
  destruct (Z.land (buffer 0) 15 =? LogicalAddress w) eqn:Haddr; cbn [negb]; [|exact Hhdr].
  apply Z.eqb_eq in Haddr. destruct (Hframe Haddr) as [Hop Hoperand].
  replace (count <? 1) with false by (symmetry; apply Z.ltb_ge; lia).
  unfold route_opcode, bind, peek, DbgPrint, emit, TransmitFrame,
    connectedTV_active_setVal. cbn.
  split_ifs_eqn; eqb_facts; rewrite ?Hptr; cbn; rewrite ?Hcell; cbn;
    apply List.Forall_forall; intros i Hi;
    repeat (rewrite List.in_app_iff in Hi || cbn in Hi);
    repeat match goal with
           | H : _ \/ _ |- _ => destruct H
           | H : False |- _ => destruct H
           end;
    subst; try lia;
    try (match goal with H : In _ (zrange _ _) |- _ => apply zrange_bounds in H end; lia);
    (assert (3 <= count) by (apply Hoperand; assumption); lia).
Qed.

(** X6.  On a frame that holds every byte the handler reads,
    [OnReceiveComplete] runs into undefined behaviour in one case only: the
    frame is addressed to the device with header 0x04, opcode 0x90 and
    operand 0x00, while [connectedTV] is null or points to no television.
    On every other such frame it returns. *)
Theorem OnReceiveComplete_undefined_iff CDT buffer count ack w :
  reads_inside_frame buffer count w ->
  (OnReceiveComplete CDT buffer count ack w = None <->
   Z.land (buffer 0) 0xf = LogicalAddress w /\
   buffer 0 = 0x04 /\ buffer 1 = 0x90 /\ buffer 2 = 0x00 /\
   (forall p, connectedTV w = Some p -> televisions w !! p = None)).
Proof.
  intros [Hinside _]. rewrite OnReceiveComplete_guards. split.
  - destruct (Z.land (buffer 0) 15 =? LogicalAddress w) eqn:Haddr; cbn; [|discriminate].
    destruct (count <? 1) eqn:Hcount; cbn; [discriminate|].
    unfold route_opcode, bind, peek, DbgPrint, emit, TransmitFrame,
      connectedTV_active_setVal. cbn.
    split_ifs_eqn; try discriminate; eqb_facts;
      (destruct (connectedTV w) as [p|] eqn:Hptr; cbn;
       [destruct (televisions w !! p) eqn:Hcell; cbn; [discriminate|]|]);
      intros _; repeat split; try assumption;
      intros q Hq; congruence.
  - intros (Haddr & Hhdr & Hop & Hoperand & Hnone).
    apply Z.eqb_eq in Haddr. rewrite Haddr.
    replace (count <? 1) with false by (symmetry; apply Z.ltb_ge; lia). cbn.
    unfold route_opcode, bind, peek, DbgPrint, emit, connectedTV_active_setVal. cbn.
    rewrite Hop, Hhdr, Hoperand. cbn.
    destruct (connectedTV w) as [p|]; [now rewrite (Hnone p eq_refl)|reflexivity].
Qed.



Lemma OnReceiveComplete_effect CDT buffer count ack w p tv :
  connectedTV w = Some p ->
  televisions w !! p = Some tv ->
  exists w' answer,
    OnReceiveComplete CDT buffer count ack w = Some (tt, w') /\
    transmitted w' = transmitted w ++ answer /\
    (answer = [] \/
     answer = [mkFrame 0xf [0x84; 0x30; 0x00; to_uchar CDT]] \/
     answer = [mkFrame 0xf [0x87; 0x01; 0x23; 0x45]] \/
     answer = [mkFrame 0x4f [0x47; 0x52; 0x44; 0x4d]]) /\
    connectedTV w' = connectedTV w /\
    LogicalAddress w' = LogicalAddress w /\
    Promiscuous w' = Promiscuous w /\
    speakers w' = speakers w /\
    (televisions w' = televisions w \/
     televisions w' = <[p := with_active (setVal 1 (active tv)) tv]> (televisions w)).
Proof.
  intros Hptr Hcell. rewrite OnReceiveComplete_guards.
  assert (Hdrop : exists w' answer,
             ret tt (after_diagnostics buffer count ack w) = Some (tt, w') /\
             transmitted w' = transmitted w ++ answer /\
             (answer = [] \/
              answer = [mkFrame 0xf [0x84; 0x30; 0x00; to_uchar CDT]] \/
              answer = [mkFrame 0xf [0x87; 0x01; 0x23; 0x45]] \/
              answer = [mkFrame 0x4f [0x47; 0x52; 0x44; 0x4d]]) /\
             connectedTV w' = connectedTV w /\
             LogicalAddress w' = LogicalAddress w /\
             Promiscuous w' = Promiscuous w /\
             speakers w' = speakers w /\
             (televisions w' = televisions w \/
              televisions w' = <[p := with_active (setVal 1 (active tv)) tv]> (televisions w))).
  { eexists. exists []. split; [reflexivity|]. destruct w; cbn.
    rewrite app_nil_r. repeat split; left; reflexivity. }
  destruct (negb _); [exact Hdrop|].
  destruct (count <? 1); [exact Hdrop|].
  exact (route_opcode_effect CDT buffer (after_diagnostics buffer count ack w) p tv Hptr Hcell).
Qed.

(** X8.  With the television connected, [OnReceiveComplete] returns on
    every frame that holds the bytes it reads and calls [TransmitFrame] at
    most once; the frame it sends is the physical address report, the
    vendor id or the name, each of four bytes. *)
Theorem OnReceiveComplete_answers_at_most_once CDT buffer count ack w p tv :
  reads_inside_frame buffer count w ->
  connectedTV w = Some p ->
  televisions w !! p = Some tv ->
  exists w' answer,
    OnReceiveComplete CDT buffer count ack w = Some (tt, w') /\
    transmitted w' = transmitted w ++ answer /\
    (length answer <= 1)%nat /\
    Forall (fun f => length (payload f) = 4%nat) answer /\
    (answer = [] \/
     answer = [mkFrame 0xf [0x84; 0x30; 0x00; to_uchar CDT]] \/
     answer = [mkFrame 0xf [0x87; 0x01; 0x23; 0x45]] \/
     answer = [mkFrame 0x4f [0x47; 0x52; 0x44; 0x4d]]).
Proof.
  intros _ Hptr Hcell.
  destruct (OnReceiveComplete_effect CDT buffer count ack w p tv Hptr Hcell)
    as (w' & answer & Hrun & Hsent & Hanswer & _).
  exists w', answer. split; [exact Hrun|]. split; [exact Hsent|].
  split; [|split; [|exact Hanswer]];
    destruct Hanswer as [-> | [-> | [-> | ->]]]; cbn; repeat constructor.
Qed.

Lemma OnReceiveComplete_answers_at_most_once_witness :
  reads_inside_frame (buffer_of [0x04; 0x8c] 0) 2 promiscuous_world /\
  connectedTV promiscuous_world = Some 0%nat /\
  exists w' answer,
    OnReceiveComplete 4 (buffer_of [0x04; 0x8c] 0) 2 true promiscuous_world = Some (tt, w') /\
    transmitted w' = transmitted promiscuous_world ++ answer /\
    (length answer <= 1)%nat /\
    Forall (fun f => length (payload f) = 4%nat) answer.
Proof.
  assert (Hin : reads_inside_frame (buffer_of [0x04; 0x8c] 0) 2 promiscuous_world)
    by (split; [lia|]; intros _; split; [lia|]; intros _ Hop; discriminate Hop).
  split; [exact Hin|]. split; [reflexivity|].
  destruct (OnReceiveComplete_answers_at_most_once 4 (buffer_of [0x04; 0x8c] 0) 2 true
              promiscuous_world 0%nat _ Hin eq_refl eq_refl)
    as (w' & answer & Hrun & Hsent & Hlen & Hfour & _).
  exists w', answer. repeat split; assumption.
Defined.

Lemma same_but_active_refl tv : same_but_active tv tv.
Proof. repeat split. Qed.

Lemma televisions_after_setVal (tvs : list HomeSpanTV) p tv c :
  tvs !! p = Some tv ->
  forall q tvq, tvs !! q = Some tvq ->
    exists tvq', <[p := with_active c tv]> tvs !! q = Some tvq' /\
                 same_but_active tvq tvq' /\
                 (q <> p -> tvq' = tvq).
Proof.
  intros Hcell q tvq Hq. destruct (decide (q = p)) as [->|Hne].
  - exists (with_active c tv). split.
    + apply list_lookup_insert_eq. now apply lookup_lt_Some in Hcell.
    + rewrite Hcell in Hq. injection Hq as <-. split; [repeat split|contradiction].
  - exists tvq. split.
    + rewrite list_lookup_insert_ne by congruence. exact Hq.
    + split; [apply same_but_active_refl|reflexivity].
Qed.



Lemma power_report_effect CDT buffer count ack w p tv :
  1 <= count ->
  buffer 0 = 0x04 ->
  Z.land (buffer 0) 0xf = LogicalAddress w ->
  buffer 1 = 0x90 ->
  buffer 2 = 0x00 ->
  connectedTV w = Some p ->
  televisions w !! p = Some tv ->
  exists w',
    OnReceiveComplete CDT buffer count ack w = Some (tt, w') /\
    televisions w' = <[p := with_active (setVal 1 (active tv)) tv]> (televisions w) /\
    transmitted w' = transmitted w /\
    connectedTV w' = connectedTV w /\
    LogicalAddress w' = LogicalAddress w.
Proof.
  intros Hcount Hhdr Haddr Hop Hoperand Hptr Hcell. addressed_to_us Haddr Hcount.
  unfold route_opcode, bind, peek, DbgPrint, emit, connectedTV_active_setVal. cbn.
  rewrite Hop, Hhdr, Hoperand. cbn. rewrite Hptr, Hcell.
  eexists. split; [reflexivity|]. destruct w; cbn in *; repeat split; congruence.
Qed.



(** X11.  Once [SetTVDevice] has been given a television, no received
    frame that holds the bytes the handler reads runs into undefined
    behaviour, whatever [connectedTV] was before, and a power report with
    operand 0x00 sets the Active characteristic of that television to 1. *)
Theorem SetTVDevice_connects_the_television CDT buffer count ack w p tv :
  televisions w !! p = Some tv ->
  reads_inside_frame buffer count w ->
  (exists w',
     (SetTVDevice (Some p) ;; OnReceiveComplete CDT buffer count ack) w = Some (tt, w') /\
     connectedTV w' = Some p) /\
  (buffer 0 = 0x04 -> Z.land (buffer 0) 0xf = LogicalAddress w ->
   buffer 1 = 0x90 -> buffer 2 = 0x00 ->
   exists w' tv',
     (SetTVDevice (Some p) ;; OnReceiveComplete CDT buffer count ack) w = Some (tt, w') /\
     televisions w' !! p = Some tv' /\
     getVal (active tv') = 1).
Proof.
  intros Hcell [Hcount _]. unfold bind, SetTVDevice. split.
  - destruct (OnReceiveComplete_effect CDT buffer count ack (set_connectedTV (Some p) w) p tv
                eq_refl Hcell) as (w' & answer & Hrun & _ & _ & Hptr & _).
    exists w'. split; [exact Hrun|exact Hptr].
  - intros Hhdr Haddr Hop Hoperand.
    destruct (power_report_effect CDT buffer count ack (set_connectedTV (Some p) w) p tv
                Hcount Hhdr Haddr Hop Hoperand eq_refl Hcell) as (w' & Hrun & Htv & _).
    exists w', (with_active (setVal 1 (active tv)) tv). split; [exact Hrun|].
    split; [|reflexivity]. rewrite Htv. cbn.
    apply list_lookup_insert_eq. now apply lookup_lt_Some in Hcell.
Qed.

Lemma SetTVDevice_connects_the_television_witness :
  connectedTV unconnected_world = None /\
  reads_inside_frame (buffer_of [0x04; 0x90; 0x00] 0) 3 unconnected_world /\
  OnReceiveComplete 4 (buffer_of [0x04; 0x90; 0x00] 0) 3 true unconnected_world = None /\
  exists w' tv',
    (SetTVDevice (Some 0%nat) ;; OnReceiveComplete 4 (buffer_of [0x04; 0x90; 0x00] 0) 3 true)
      unconnected_world = Some (tt, w') /\
    televisions w' !! 0%nat = Some tv' /\
    getVal (active tv') = 1.
Proof.
  assert (Hin : reads_inside_frame (buffer_of [0x04; 0x90; 0x00] 0) 3 unconnected_world)
    by (split; [lia|]; intros _; split; [lia|]; intros _ _; lia).
  split; [reflexivity|]. split; [exact Hin|]. split; [reflexivity|].
  destruct (SetTVDevice_connects_the_television 4 (buffer_of [0x04; 0x90; 0x00] 0) 3 true
              unconnected_world 0%nat _ eq_refl Hin) as [_ Hpower].
  apply Hpower; reflexivity.
Defined.

(** ** HomeSpanTV::update and HomeSpanTVSpeaker::update *)

Lemma HomeSpanTV_update_frames this self w :
  televisions w !! this = Some self ->
  exists w',
    HomeSpanTV_update this w = Some (true, w') /\
    transmitted w' = transmitted w ++ power_frames self ++ key_frames self /\
    televisions w' = televisions w /\
    speakers w' = speakers w /\
    connectedTV w' = connectedTV w /\
    LogicalAddress w' = LogicalAddress w /\
    Promiscuous w' = Promiscuous w /\
    derefs w' = derefs w.
Proof.
  intros Hcell. unfold HomeSpanTV_update. rewrite Hcell. clear Hcell.
  unfold key_frames, user_control_codes, bind, when, emit, TransmitFrame, ret, press. cbn.
  split_flags self; destruct (updated (remoteKey self)); cbn; split_ifs;
    (eexists; split; [reflexivity|]; destruct w; cbn;
     rewrite <- ?app_assoc, ?app_nil_r; repeat split).
Qed.

Lemma key_frames_shape self :
  key_frames self = [] \/
  exists c, In (getNewVal (remoteKey self), c) user_control_codes /\
            key_frames self = [mkFrame 0x48 [0x44; c]].
Proof.
  unfold key_frames, user_control_codes. destruct (updated (remoteKey self)); [|now left].
  cbn. split_ifs_eqn; eqb_facts;
    first [ now left
          | right; eexists; split; [|reflexivity];
            match goal with H : getNewVal _ = _ |- _ => rewrite H end; cbn; tauto ].
Qed.

(** X12.  When the Active characteristic is updated, the first frame
    [HomeSpanTV::update] transmits is the power frame: the single byte
    0x0D for target 0x0 when the new value is not zero, the single byte
    0x36 for target 0xF when it is zero.  It is the only frame unless the
    remote key is updated in the same request. *)
Theorem power_change_sends_power_frame this self w :
  televisions w !! this = Some self ->
  updated (active self) = true ->
  exists w' rest,
    HomeSpanTV_update this w = Some (true, w') /\
    (getNewVal (active self) <> 0 ->
     transmitted w' = transmitted w ++ mkFrame 0x0 [0x0d] :: rest) /\
    (getNewVal (active self) = 0 ->
     transmitted w' = transmitted w ++ mkFrame 0x0F [0x36] :: rest) /\
    (updated (remoteKey self) = false -> rest = []) /\
    ApplicationState w' = ApplicationState w.
Proof.
  intros Hcell Hupd.
  destruct (HomeSpanTV_update_frames this self w Hcell)
    as (w' & Hrun & Hsent & Htv & Hsp & _).
  exists w', (key_frames self). split; [exact Hrun|].
  unfold power_frames in Hsent. rewrite Hupd in Hsent.
  split; [|split; [|split]].
  - intros Hon. apply Z.eqb_neq in Hon. now rewrite Hon in Hsent.
  - intros Hoff. apply Z.eqb_eq in Hoff. now rewrite Hoff in Hsent.
  - intros Hkey. unfold key_frames. now rewrite Hkey.
  - unfold ApplicationState. now rewrite Htv, Hsp.
Qed.

Lemma power_change_sends_power_frame_witness :
  (exists w',
     HomeSpanTV_update 0 (power_world 1) = Some (true, w') /\
     transmitted w' = [mkFrame 0x0 [0x0d]]) /\
  (exists w',
     HomeSpanTV_update 0 (power_world 0) = Some (true, w') /\
     transmitted w' = [mkFrame 0x0F [0x36]]).
Proof.
  split.
  - destruct (power_change_sends_power_frame 0 _ (power_world 1) eq_refl eq_refl)
      as (w' & rest & Hrun & Hon & _ & Hrest & _).
    exists w'. split; [exact Hrun|].
    rewrite (Hon ltac:(discriminate)), (Hrest eq_refl). reflexivity.
  - destruct (power_change_sends_power_frame 0 _ (power_world 0) eq_refl eq_refl)
      as (w' & rest & Hrun & _ & Hoff & Hrest & _).
    exists w'. split; [exact Hrun|].
    rewrite (Hoff eq_refl), (Hrest eq_refl). reflexivity.
Defined.



(** X14.  On a television that exists, [HomeSpanTV::update] always
    returns [true] and writes no state: the characteristics, the speakers,
    [connectedTV] and the logical address are as before.  It transmits at
    most two frames, the one-byte power frame first, then the two-byte key
    frame for target 0x48. *)
Theorem HomeSpanTV_update_writes_no_state this self w :
  televisions w !! this = Some self ->
  exists w' power keys,
    HomeSpanTV_update this w = Some (true, w') /\
    transmitted w' = transmitted w ++ power ++ keys /\
    (length power <= 1)%nat /\
    Forall (fun f => length (payload f) = 1%nat) power /\
    (length keys <= 1)%nat /\
    Forall (fun f => targetAddress f = 0x48 /\ length (payload f) = 2%nat) keys /\
    ApplicationState w' = ApplicationState w /\
    connectedTV w' = connectedTV w /\
    LogicalAddress w' = LogicalAddress w.
Proof.
  intros Hcell.
  destruct (HomeSpanTV_update_frames this self w Hcell)
    as (w' & Hrun & Hsent & Htv & Hsp & Hptr & Hla & _).
  exists w', (power_frames self), (key_frames self).
  split; [exact Hrun|]. split; [exact Hsent|].
  split; [|split; [apply power_frames_one_byte|]].
  { unfold power_frames. destruct (updated (active self)); cbn; lia. }
  split; [|split; [|split; [|split; [exact Hptr|exact Hla]]]].
  - destruct (key_frames_shape self) as [-> | (c & _ & ->)]; cbn; lia.
  - destruct (key_frames_shape self) as [-> | (c & _ & ->)]; repeat constructor.
  - unfold ApplicationState. now rewrite Htv, Hsp.
Qed.

Lemma HomeSpanTV_update_writes_no_state_witness :
  exists w' power keys,
    HomeSpanTV_update 0 (key_world 4) = Some (true, w') /\
    transmitted w' = transmitted (key_world 4) ++ power ++ keys /\
    ApplicationState w' = ApplicationState (key_world 4).
Proof.
  destruct (HomeSpanTV_update_writes_no_state 0 _ (key_world 4) eq_refl)
    as (w' & power & keys & Hrun & Hsent & _ & _ & _ & _ & Happ & _).
  exists w', power, keys. repeat split; assumption.
Defined.

Lemma HomeSpanTVSpeaker_update_frames this self w :
  speakers w !! this = Some self ->
  exists w',
    HomeSpanTVSpeaker_update this w = Some (true, w') /\
    transmitted w' = transmitted w ++ volume_frames self /\
    televisions w' = televisions w /\
    speakers w' = speakers w /\
    connectedTV w' = connectedTV w /\
    LogicalAddress w' = LogicalAddress w /\
    Promiscuous w' = Promiscuous w /\
    derefs w' = derefs w.
Proof.
  intros Hcell. unfold HomeSpanTVSpeaker_update. rewrite Hcell. clear Hcell.
  unfold volume_frames, bind, when, emit, TransmitFrame, ret.
  destruct (updated (volume self)); cbn;
    [destruct (getNewVal (volume self) =? 0); cbn|];
    destruct (updated (volumeType self)); cbn;
    (eexists; split; [reflexivity|]; destruct w; cbn;
     rewrite ?app_nil_r; repeat split).
Qed.



(** ** Sequences of callbacks *)

Lemma evolves_refl p w : evolves p w w.
Proof.
  repeat split. - exists []. now rewrite app_nil_r.
  - intros q tv Hq. exists tv. split; [exact Hq|]. split; [apply same_but_active_refl|reflexivity].
Qed.

Lemma evolves_trans p w1 w2 w3 : evolves p w1 w2 -> evolves p w2 w3 -> evolves p w1 w3.
Proof.
  intros (Hptr & Hla & Hpr & Hsp & Hlen & [m1 Hm1] & Htv)
         (Hptr' & Hla' & Hpr' & Hsp' & Hlen' & [m2 Hm2] & Htv').
  repeat split; try congruence.
  - exists (m1 ++ m2). rewrite Hm2, Hm1. now rewrite app_assoc.
  - intros q tv Hq. destruct (Htv q tv Hq) as (tv' & Hq' & (Ha & Hb & Hc) & Hsame).
    destruct (Htv' q tv' Hq') as (tv'' & Hq'' & (Ha' & Hb' & Hc') & Hsame').
    exists tv''. split; [exact Hq''|]. split.
    + repeat split; congruence.
    + intros Hne. rewrite (Hsame' Hne). exact (Hsame Hne).
Qed.

Lemma evolves_by_logs p w w' :
  connectedTV w' = connectedTV w ->
  LogicalAddress w' = LogicalAddress w ->
  Promiscuous w' = Promiscuous w ->
  speakers w' = speakers w ->
  televisions w' = televisions w ->
  (exists more, transmitted w' = transmitted w ++ more) ->
  evolves p w w'.
Proof.
  intros Hptr Hla Hpr Hsp Htv Hmore. repeat split; try assumption.
  - now rewrite Htv.
  - intros q tv Hq. exists tv. rewrite Htv. split; [exact Hq|].
    split; [apply same_but_active_refl|reflexivity].
Qed.

Lemma invoke_evolves CDT c w p :
  connectedTV w = Some p ->
  (p < length (televisions w))%nat ->
  live w c ->
  exists w', invoke CDT c w = Some (tt, w') /\ evolves p w w'.
Proof.
  intros Hptr Hp Hlive.
  destruct (lookup_lt_is_Some_2 (televisions w) p Hp) as [tv Hcell].
  destruct c as [la | buffer count ack | buffer count ack | this | this];
    cbn [invoke live] in *.
  - eexists. split; [reflexivity|]. apply evolves_by_logs; try (now destruct w).
    eexists. now destruct w.
  - destruct (OnReceiveComplete_effect CDT buffer count ack w p tv Hptr Hcell)
      as (w' & answer & Hrun & Hsent & _ & Hptr' & Hla & Hpr & Hsp & Htv).
    exists w'. split; [exact Hrun|]. destruct Htv as [Htv | Htv].
    + apply evolves_by_logs; try assumption. now exists answer.
    + repeat split; try assumption.
      * rewrite Htv. apply length_insert.
      * now exists answer.
      * rewrite Htv. now apply televisions_after_setVal.
  - rewrite OnTransmitComplete_run. eexists. split; [reflexivity|].
    apply evolves_by_logs; try (now destruct w).
    exists []. destruct w; cbn. now rewrite app_nil_r.
  - destruct (lookup_lt_is_Some_2 (televisions w) this Hlive) as [self Hself].
    destruct (HomeSpanTV_update_frames this self w Hself)
      as (w' & Hrun & Hsent & Htv & Hsp & Hptr' & Hla & Hpr & _).
    exists w'. unfold bind. rewrite Hrun. split; [reflexivity|].
    apply evolves_by_logs; try assumption. eexists; exact Hsent.
  - destruct (lookup_lt_is_Some_2 (speakers w) this Hlive) as [self Hself].
    destruct (HomeSpanTVSpeaker_update_frames this self w Hself)
      as (w' & Hrun & Hsent & Htv & Hsp & Hptr' & Hla & Hpr & _).
    exists w'. unfold bind. rewrite Hrun. split; [reflexivity|].
    apply evolves_by_logs; try assumption. eexists; exact Hsent.
Qed.

Lemma live_evolves p w w' c : evolves p w w' -> live w c -> live w' c.
Proof.
  intros (_ & _ & _ & Hsp & Hlen & _) Hlive. destruct c; cbn in *; try exact I.
  - now rewrite Hlen.
  - now rewrite Hsp.
Qed.

Lemma in_frame_evolves p w w' c : evolves p w w' -> in_frame w c -> in_frame w' c.
Proof.
  intros (_ & Hla & _) Hf. destruct c; cbn in *; try exact Hf.
  unfold reads_inside_frame in *. now rewrite Hla.
Qed.

(** X17.  Started with [connectedTV] pointing to a television, any
    series of callbacks ([OnReady], [OnReceiveComplete] and
    [OnTransmitComplete] on frames that hold the bytes they read, [update]
    on objects that exist), each run to its end, runs without undefined
    behaviour and keeps the sketch in shape: [connectedTV], the logical
    address, the promiscuous flag and the speakers are as at the start, no
    television is added or removed, the transmit log has only grown, and
    no characteristic but the Active one of the connected television has
    changed. *)
Theorem callbacks_keep_the_television_connected CDT cs : forall w p,
  connectedTV w = Some p ->
  (p < length (televisions w))%nat ->
  Forall (live w) cs ->
  Forall (in_frame w) cs ->
  exists w',
    invoke_all CDT cs w = Some (tt, w') /\
    connectedTV w' = Some p /\
    (p < length (televisions w'))%nat /\
    evolves p w w'.
Proof.
  induction cs as [|c cs IH]; intros w p Hptr Hp Hlive Hframes.
  - exists w. split; [reflexivity|]. split; [exact Hptr|]. split; [exact Hp|].
    apply evolves_refl.
  - inversion Hlive as [|c' cs' Hc Hcs]; subst.
    inversion Hframes as [|c' cs' Hf Hfs]; subst.
    destruct (invoke_evolves CDT c w p Hptr Hp Hc) as (w1 & Hrun1 & Hev1).
    assert (Hptr1 : connectedTV w1 = Some p)
      by (destruct Hev1 as (H & _); congruence).
    assert (Hp1 : (p < length (televisions w1))%nat)
      by (destruct Hev1 as (_ & _ & _ & _ & H & _); lia).
    assert (Hlive1 : Forall (live w1) cs).
    { eapply Forall_impl; [exact Hcs|]. intros c0. now apply live_evolves with p. }
    assert (Hframes1 : Forall (in_frame w1) cs).
    { eapply Forall_impl; [exact Hfs|]. intros c0. now apply in_frame_evolves with p. }
    destruct (IH w1 p Hptr1 Hp1 Hlive1 Hframes1) as (w' & Hrun & Hptr' & Hp' & Hev).
    exists w'. cbn. unfold bind. rewrite Hrun1.
    split; [exact Hrun|]. split; [exact Hptr'|]. split; [exact Hp'|].
    now apply evolves_trans with w1.
Qed.

Lemma callbacks_keep_the_television_connected_witness :
  connectedTV promiscuous_world = Some 0%nat /\
  (0 < length (televisions promiscuous_world))%nat /\
  Forall (live promiscuous_world) sample_callbacks /\
  Forall (in_frame promiscuous_world) sample_callbacks /\
  exists w',
    invoke_all 4 sample_callbacks promiscuous_world = Some (tt, w') /\
    connectedTV w' = Some 0%nat /\
    (0 < length (televisions w'))%nat /\
    evolves 0 promiscuous_world w'.
Proof.
  assert (Hlive : Forall (live promiscuous_world) sample_callbacks)
    by (repeat constructor).
  assert (Hframes : Forall (in_frame promiscuous_world) sample_callbacks).
  { unfold sample_callbacks.
    constructor; [cbn; split; [lia|intros _; split; [lia|intros _ _; lia]]|].
    constructor; [exact I|]. constructor; [exact I|].
    constructor; [cbn; split; [lia|intros _; split; [lia|intros _ Hop; discriminate Hop]]|].
    constructor; [cbn; lia|]. constructor; [exact I|]. constructor. }
  split; [reflexivity|]. split; [cbn; lia|]. split; [exact Hlive|]. split; [exact Hframes|].
  apply (callbacks_keep_the_television_connected 4 sample_callbacks promiscuous_world 0%nat
           eq_refl ltac:(cbn; lia) Hlive Hframes).
Defined.

(** ** The CEC line *)

Lemma SetLineState_step LOW (s : bool) (rest : list Line.Call) :
  (forall before after,
     rest = before ++ Line.pinMode CEC_GPIO Line.OUTPUT :: after ->
     exists before', before = before' ++ [Line.digitalWrite CEC_GPIO LOW]) ->
  forall before after,
    Line.SetLineState LOW s ++ rest = before ++ Line.pinMode CEC_GPIO Line.OUTPUT :: after ->
    exists before', before = before' ++ [Line.digitalWrite CEC_GPIO LOW].
Proof.
  intros IH before after Heq. destruct s; cbn in Heq.
  - destruct before as [|a [|b before]]; cbn in Heq; try discriminate.
    injection Heq as <- <- Hrest. destruct (IH _ _ Hrest) as [before' ->].
    now exists (Line.pinMode CEC_GPIO Line.INPUT_PULLUP :: Line.delayMicroseconds 50 :: before').
  - destruct before as [|a [|b [|c before]]]; cbn in Heq; try discriminate.
    + injection Heq as <- _. now exists [].
    + injection Heq as <- <- <- Hrest. destruct (IH _ _ Hrest) as [before' ->].
      now exists (Line.digitalWrite CEC_GPIO LOW :: Line.pinMode CEC_GPIO Line.OUTPUT
                  :: Line.delayMicroseconds 50 :: before').
Qed.

Lemma SetLineState_settles LOW (s : bool) (rest : list Line.Call) :
  (forall before pin mode after,
     rest = before ++ Line.pinMode pin mode :: after ->
     exists after', after = Line.delayMicroseconds 50 :: after') ->
  forall before pin mode after,
    Line.SetLineState LOW s ++ rest = before ++ Line.pinMode pin mode :: after ->
    exists after', after = Line.delayMicroseconds 50 :: after'.
Proof.
  intros IH before pin mode after Heq. destruct s; cbn in Heq.
  - destruct before as [|a [|b before]]; cbn in Heq; try discriminate.
    + injection Heq as _ _ <-. now eexists.
    + injection Heq as _ _ Hrest. exact (IH _ _ _ _ Hrest).
  - destruct before as [|a [|b [|c before]]]; cbn in Heq; try discriminate.
    + injection Heq as _ _ _ <-. now eexists.
    + injection Heq as _ _ _ Hrest. exact (IH _ _ _ _ Hrest).
Qed.

(** X16.  Whatever series of states [SetLineState] is called with, it
    never writes a level other than [LOW]: every [digitalWrite] writes
    [LOW] to the CEC pin, the pin is switched to [OUTPUT] only right after
    such a write, no other pin is touched, and every change of the pin
    mode is followed at once by the 50 microsecond settling delay. *)
Theorem SetLineState_writes_low_before_output LOW (states : list bool) :
  (forall pin level, In (Line.digitalWrite pin level) (Line.calls_of LOW states) ->
     pin = CEC_GPIO /\ level = LOW) /\
  (forall pin mode, In (Line.pinMode pin mode) (Line.calls_of LOW states) ->
     pin = CEC_GPIO) /\
  (forall before after,
     Line.calls_of LOW states = before ++ Line.pinMode CEC_GPIO Line.OUTPUT :: after ->
     exists before', before = before' ++ [Line.digitalWrite CEC_GPIO LOW]) /\
  (forall before pin mode after,
     Line.calls_of LOW states = before ++ Line.pinMode pin mode :: after ->
     exists after', after = Line.delayMicroseconds 50 :: after').
Proof.
  induction states as [|s states (IHw & IHm & IHo & IHd)].
  - repeat split; try (intros; contradiction);
      intros; cbn in *; destruct before; discriminate.
  - change (Line.calls_of LOW (s :: states))
      with (Line.SetLineState LOW s ++ Line.calls_of LOW states).
    split; [|split; [|split]].
    + intros pin level Hin. apply List.in_app_iff in Hin. destruct Hin as [Hin | Hin].
      * destruct s; cbn in Hin;
          repeat (destruct Hin as [Hin | Hin]; [try discriminate|]); try contradiction.
        injection Hin as <- <-. now split.
      * exact (IHw pin level Hin).
    + intros pin mode Hin. apply List.in_app_iff in Hin. destruct Hin as [Hin | Hin].
      * destruct s; cbn in Hin;
          repeat (destruct Hin as [Hin | Hin]; [try discriminate; now injection Hin as <- _|]);
          contradiction.
      * exact (IHm pin mode Hin).
    + apply SetLineState_step. exact IHo.
    + apply SetLineState_settles. exact IHd.
Qed.

Lemma SetLineState_writes_low_before_output_witness :
  Line.calls_of 0 [false; true]
  = [Line.digitalWrite 13 0; Line.pinMode 13 Line.OUTPUT; Line.delayMicroseconds 50;
     Line.pinMode 13 Line.INPUT_PULLUP; Line.delayMicroseconds 50] /\
  exists before',
    [Line.digitalWrite 13 0] = before' ++ [Line.digitalWrite CEC_GPIO 0].
Proof.
  split; [reflexivity|].
  destruct (SetLineState_writes_low_before_output 0 [false; true]) as (_ & _ & Hout & _).
  apply (Hout [Line.digitalWrite 13 0]
              [Line.delayMicroseconds 50; Line.pinMode 13 Line.INPUT_PULLUP;
               Line.delayMicroseconds 50]).
  reflexivity.
Defined.

(** ** The ack flag *)

Lemma diagnostic_lines_length now buffer count ack :
  length (diagnostic_lines now buffer count ack)
  = (2 + Z.to_nat (count - 1) + (if ack then 0 else 1))%nat.
Proof.
  unfold diagnostic_lines. cbn. rewrite length_app, length_map, zrange_length, length_app.
  destruct ack; cbn; lia.
Qed.

Section Blind.
Variables pre1 pre2 : list Output.

Lemma blind_ret {A} (a : A) : console_blind pre1 pre2 (ret a).
Proof. intros w1 w2 H. cbn. now split. Qed.

Lemma blind_bind {A B} (m : M A) (k : A -> M B) :
  console_blind pre1 pre2 m -> (forall a, console_blind pre1 pre2 (k a)) ->
  console_blind pre1 pre2 (bind m k).
Proof.
  intros Hm Hk w1 w2 H. unfold bind. specialize (Hm w1 w2 H).
  destruct (m w1) as [[a1 w1']|], (m w2) as [[a2 w2']|]; try contradiction; [|exact I].
  destruct Hm as [<- Hw]. exact (Hk a1 w1' w2' Hw).
Qed.

Ltac open_agree H :=
  destruct H as (Hla & Hpr & Hptr & Htv & Hsp & Hms & Htx & Hde & tail & Hc1 & Hc2).

Ltac close_agree tail' :=
  split; [reflexivity|]; repeat split; cbn; try assumption; try congruence;
  exists tail'; cbn.

Lemma blind_peek buffer i : console_blind pre1 pre2 (peek buffer i).
Proof.
  intros w1 w2 H. open_agree H. destruct w1, w2; cbn in *.
  close_agree tail. now split.
Qed.

Lemma blind_emit o : console_blind pre1 pre2 (emit o).
Proof.
  intros w1 w2 H. open_agree H. destruct w1, w2; cbn in *.
  close_agree (tail ++ [o]). rewrite Hc1, Hc2, !app_assoc. now split.
Qed.

Lemma blind_TransmitFrame target buffer count :
  console_blind pre1 pre2 (TransmitFrame target buffer count).
Proof.
  intros w1 w2 H. open_agree H. destruct w1, w2; cbn in *.
  close_agree tail. now split.
Qed.

Lemma blind_setVal v : console_blind pre1 pre2 (connectedTV_active_setVal v).
Proof.
  intros w1 w2 H. open_agree H. unfold connectedTV_active_setVal, crash.
  rewrite Hptr, Htv. destruct (connectedTV w2) as [p|] eqn:Hptr2; [|exact I].
  destruct (televisions w2 !! p); [|exact I].
  destruct w1, w2; cbn in *. close_agree tail. now split.
Qed.

Lemma route_opcode_blind CDT buffer : console_blind pre1 pre2 (route_opcode CDT buffer).
Proof.
  unfold route_opcode, DbgPrint. cbn [switch].
  repeat first
    [ apply blind_emit | apply blind_peek | apply blind_TransmitFrame
    | apply blind_ret | apply blind_setVal
    | apply blind_bind; [|intros ?]
    | match goal with |- console_blind _ _ (if ?c then _ else _) => destruct c end ].
Qed.

End Blind.

Lemma after_diagnostics_agree buffer count w :
  agree (console w ++ diagnostic_lines (millis w) buffer count true)
        (console w ++ diagnostic_lines (millis w) buffer count false)
        (after_diagnostics buffer count true w)
        (after_diagnostics buffer count false w).
Proof.
  destruct w; cbn. repeat split. exists []. now rewrite !app_nil_r.
Qed.

(** X18.  The [ack] flag of a received frame only decides whether NAK is
    printed: a frame that was not acknowledged is answered and acted on
    exactly as an acknowledged one (same calls of [TransmitFrame], same
    application state, same bytes read, same outcome). *)
Theorem OnReceiveComplete_acts_on_frames_without_ack CDT buffer count w :
  match OnReceiveComplete CDT buffer count true w,
        OnReceiveComplete CDT buffer count false w with
  | Some (_, w1), Some (_, w2) =>
      transmitted w1 = transmitted w2 /\
      ApplicationState w1 = ApplicationState w2 /\
      derefs w1 = derefs w2 /\
      connectedTV w1 = connectedTV w2 /\
      console w2 <> console w1
  | None, None => True
  | _, _ => False
  end.
Proof.
  rewrite !OnReceiveComplete_guards.
  set (pre1 := console w ++ diagnostic_lines (millis w) buffer count true).
  set (pre2 := console w ++ diagnostic_lines (millis w) buffer count false).
  set (G := if negb (Z.land (buffer 0) 15 =? LogicalAddress w) then ret tt
            else if count <? 1 then ret tt else route_opcode CDT buffer).
  assert (Hblind : console_blind pre1 pre2 G).
  { subst G. destruct (negb _); [apply blind_ret|].
    destruct (count <? 1); [apply blind_ret|apply route_opcode_blind]. }
  specialize (Hblind _ _ (after_diagnostics_agree buffer count w)).
  destruct (G (after_diagnostics buffer count true w)) as [[u1 w1]|];
    destruct (G (after_diagnostics buffer count false w)) as [[u2 w2]|];
    try exact Hblind.
  destruct Hblind as (_ & _ & _ & Hptr & Htv & Hsp & _ & Hsent & Hreads & tail & Hc1 & Hc2).
  split; [exact Hsent|]. split; [unfold ApplicationState; congruence|].
  split; [exact Hreads|]. split; [exact Hptr|].
  intros H. apply (f_equal (@length Output)) in H. rewrite Hc1, Hc2 in H.
  subst pre1 pre2. rewrite !length_app, !diagnostic_lines_length in H. lia.
Qed.

Lemma OnReceiveComplete_undefined_iff_witness :
  reads_inside_frame (buffer_of [0x04; 0x90; 0x00] 0) 3 unconnected_world /\
  OnReceiveComplete 4 (buffer_of [0x04; 0x90; 0x00] 0) 3 true unconnected_world = None /\
  reads_inside_frame (buffer_of [0x04; 0x90; 0x01] 0) 3 unconnected_world /\
  OnReceiveComplete 4 (buffer_of [0x04; 0x90; 0x01] 0) 3 true unconnected_world <> None.
Proof.
  assert (Hin0 : reads_inside_frame (buffer_of [0x04; 0x90; 0x00] 0) 3 unconnected_world)
    by (split; [lia|]; intros _; split; [lia|]; intros _ _; lia).
  assert (Hin1 : reads_inside_frame (buffer_of [0x04; 0x90; 0x01] 0) 3 unconnected_world)
    by (split; [lia|]; intros _; split; [lia|]; intros _ _; lia).
  split; [exact Hin0|]. split; [|split; [exact Hin1|]].
  - apply (OnReceiveComplete_undefined_iff 4 (buffer_of [0x04; 0x90; 0x00] 0) 3 true
             unconnected_world Hin0).
    repeat split; try reflexivity; discriminate.
  - intros H.
    apply (OnReceiveComplete_undefined_iff 4 (buffer_of [0x04; 0x90; 0x01] 0) 3 true
             unconnected_world Hin1) in H.
    destruct H as (_ & _ & _ & Hoperand & _). discriminate Hoperand.
Defined.
